(** * Tag-helper generator and load-balancer listener resource

    A shallow embedding of
    - [aws/internal/keyvaluetags/generators/servicetags/main.go], the
      build-time generator of the per-service tag conversion functions, and
    - the listener resource ([resourceAwsLbListenerCreate], [..Read],
      [..Update], [..Delete], [..RefreshFunc]),
    followed by the properties proved about them. *)

From Stdlib Require Import ZArith Lia String Ascii List Bool.
From stdpp Require Import base tactics option list sorting strings pretty gmap.

Local Open Scope string_scope.
Local Open Scope Z_scope.

(* ===================================================================== *)
(** ** Text helpers *)
(* ===================================================================== *)

Module Text.

Definition nl : string := String (ascii_of_nat 10) EmptyString.
Definition tab : string := String (ascii_of_nat 9) EmptyString.
Definition quote : string := String (ascii_of_nat 34) EmptyString.

(** [strings.HasPrefix]. *)
Fixpoint HasPrefix (s p : string) : bool :=
  match p, s with
  | EmptyString, _ => true
  | String c p', String d s' => if Ascii.eqb c d then HasPrefix s' p' else false
  | String _ _, EmptyString => false
  end.

(** [strings.Contains]: [substr] occurs somewhere in [s]. *)
Fixpoint Contains (s substr : string) : bool :=
  HasPrefix s substr ||
  match s with
  | EmptyString => false
  | String _ s' => Contains s' substr
  end.

Definition isLower (c : ascii) : bool :=
  let n := nat_of_ascii c in (97 <=? n)%nat && (n <=? 122)%nat.
Definition isUpper (c : ascii) : bool :=
  let n := nat_of_ascii c in (65 <=? n)%nat && (n <=? 90)%nat.
Definition isDigit (c : ascii) : bool :=
  let n := nat_of_ascii c in (48 <=? n)%nat && (n <=? 57)%nat.

(** [strings.isSeparator] on ASCII: letters, digits and underscore are
    not separators, every other ASCII character is. *)
Definition isSeparator (c : ascii) : bool :=
  negb (isLower c || isUpper c || isDigit c || Ascii.eqb c "_"%char).

Definition toTitle (c : ascii) : ascii :=
  if isLower c then ascii_of_nat (nat_of_ascii c - 32) else c.

(** [strings.Title]: the first letter of every word is mapped to title
    case; [prev] is the previous character, a space at the start. *)
Fixpoint titleFrom (prev : ascii) (s : string) : string :=
  match s with
  | EmptyString => EmptyString
  | String c s' =>
      String (if isSeparator prev then toTitle c else c) (titleFrom c s')
  end.

Definition Title (s : string) : string := titleFrom " "%char s.

(** A name made of lowercase letters and digits only, as the service
    names of the generator are. *)
Fixpoint plainName (s : string) : bool :=
  match s with
  | EmptyString => true
  | String c s' => (isLower c || isDigit c) && plainName s'
  end.

(** Lines of a text, each one written after a line break. *)
Definition unlines (ls : list string) : string :=
  fold_right (fun l acc => nl ++ l ++ acc) "" ls.

(** The lines of a text, as [strings.Split(s, "\n")] gives them; used to
    read the generated text line by line. *)
Definition isBreak (c : ascii) : bool := Ascii.eqb c (ascii_of_nat 10).

Fixpoint splitLines (s : string) : list string :=
  match s with
  | EmptyString => [ EmptyString ]
  | String c s' =>
      if isBreak c then EmptyString :: splitLines s'
      else match splitLines s' with
           | l :: ls => String c l :: ls
           | [] => [ String c EmptyString ]
           end
  end.

(** A string without a line break. *)
Fixpoint noBreak (s : string) : bool :=
  match s with
  | EmptyString => true
  | String c s' => negb (isBreak c) && noBreak s'
  end.

End Text.

(* ===================================================================== *)
(** ** The generator of the service tag helpers *)
(* ===================================================================== *)

Module ServiceTags.
Import Text.

Definition filename : string := "service_tags_gen.go".

(** Representing types such as []*athena.Tag, []*ec2.Tag, ... *)
Definition sliceServiceNames : list string :=
  [ "acm"; "acmpca"; "appmesh"; "athena";
    "cloud9"; "cloudformation"; "cloudfront"; "cloudhsmv2"; "cloudtrail";
    "cloudwatch"; "cloudwatchevents"; "codebuild"; "codedeploy";
    "codepipeline"; "configservice"; "databasemigrationservice";
    "datapipeline"; "datasync"; "dax"; "devicefarm"; "directconnect";
    "directoryservice"; "docdb"; "dynamodb"; "ec2"; "ecr"; "ecs"; "efs";
    "elasticache"; "elasticbeanstalk"; "elasticsearchservice"; "elb";
    "elbv2"; "emr"; "firehose"; "fms"; "fsx"; "gamelift";
    "globalaccelerator"; "iam"; "inspector"; "iot"; "iotanalytics";
    "iotevents"; "kinesis"; "kinesisanalytics"; "kinesisanalyticsv2";
    "kms"; "licensemanager"; "lightsail"; "mediastore"; "neptune";
    "organizations"; "quicksight"; "ram"; "rds"; "redshift"; "route53";
    "route53resolver"; "s3"; "sagemaker"; "secretsmanager";
    "serverlessapplicationrepository"; "servicecatalog"; "sfn"; "sns";
    "ssm"; "storagegateway"; "swf"; "transfer"; "waf"; "wafregional";
    "wafv2"; "workspaces" ].

Definition mapServiceNames : list string :=
  [ "accessanalyzer"; "amplify"; "apigateway"; "apigatewayv2";
    "appstream"; "appsync"; "backup"; "batch"; "cloudwatchlogs";
    "codecommit"; "codestarnotifications"; "cognitoidentity";
    "cognitoidentityprovider"; "dataexchange"; "dlm"; "eks"; "glacier";
    "glue"; "guardduty"; "greengrass"; "kafka"; "kinesisvideo";
    "imagebuilder"; "lambda"; "mediaconnect"; "mediaconvert";
    "medialive"; "mediapackage"; "mq"; "opsworks"; "qldb"; "pinpoint";
    "resourcegroups"; "securityhub"; "sqs" ].

Record TemplateData := {
  MapServiceNames : list string;
  SliceServiceNames : list string
}.

(** ServiceTagKeyType determines the service tagging tag key type. *)
Definition ServiceTagKeyType (serviceName : string) : string :=
  if String.eqb serviceName "elb" then "TagKeyOnly" else "".

(** ServiceTagType determines the service tagging tag type. *)
Definition ServiceTagType (serviceName : string) : string :=
  if String.eqb serviceName "appmesh" then "TagRef"
  else if String.eqb serviceName "datasync" then "TagListEntry"
  else if String.eqb serviceName "fms" then "ResourceTag"
  else if String.eqb serviceName "swf" then "ResourceTag"
  else "Tag".

(** ServiceTagTypeKeyField determines the service tagging tag type key
    field. *)
Definition ServiceTagTypeKeyField (serviceName : string) : string :=
  if String.eqb serviceName "kms" then "TagKey" else "Key".

(** ServiceTagTypeValueField determines the service tagging tag type
    value field. *)
Definition ServiceTagTypeValueField (serviceName : string) : string :=
  if String.eqb serviceName "kms" then "TagValue" else "Value".

(** The order of [sort.Strings]: bytewise lexicographic [<=]. *)
Definition string_le (a b : string) : Prop := String.leb a b = true.

#[export] Instance string_le_dec a b : Decision (string_le a b).
Proof. unfold string_le. apply _. Defined.

(** [sort.Strings]: the list in ascending order. *)
Definition sortStrings (l : list string) : list string :=
  merge_sort string_le l.

(** *** The template

    [templateBody] is written out as the text it expands to, line by
    line: every line below is preceded by a line break in the output,
    and the trim markers of the template remove the break that would
    follow a block. [TagPackage] is [keyvaluetags.ServiceTagPackage],
    which lives in another package. *)
Section Template.
Variable TagPackage : string -> string.

Definition header : list string :=
  [ "// Code generated by generators/servicetags/main.go; DO NOT EDIT.";
    "";
    "package keyvaluetags";
    "";
    "import (";
    tab ++ quote ++ "github.com/aws/aws-sdk-go/aws" ++ quote ].

(** {{- if eq . (. | TagPackage) }} *)
Definition importLines (s : string) : list string :=
  if String.eqb s (TagPackage s)
  then [ tab ++ quote ++ "github.com/aws/aws-sdk-go/service/" ++ s ++ quote ]
  else [].

Definition mapHeading : list string :=
  [ ")"; ""; "// map[string]*string handling" ].

(** Body of {{- range .MapServiceNames }}. *)
Definition mapBlock (s : string) : list string :=
  [ "";
    "// " ++ Title s ++ "Tags returns " ++ s ++ " service tags.";
    "func (tags KeyValueTags) " ++ Title s ++ "Tags() map[string]*string {";
    tab ++ "return aws.StringMap(tags.Map())";
    "}";
    "";
    "// " ++ Title s ++ "KeyValueTags creates KeyValueTags from " ++ s
      ++ " service tags.";
    "func " ++ Title s ++ "KeyValueTags(tags map[string]*string) KeyValueTags {";
    tab ++ "return New(tags)";
    "}" ].

Definition sliceHeading : list string :=
  [ ""; "// []*SERVICE.Tag handling" ].

(** {{- if . | TagKeyType }}: a non-empty string is true. *)
Definition tagKeysBlock (s : string) : list string :=
  if String.eqb (ServiceTagKeyType s) "" then []
  else
    let keyType := TagPackage s ++ "." ++ ServiceTagKeyType s in
    [ "// " ++ Title s ++ "TagKeys returns " ++ s ++ " service tag keys.";
      "func (tags KeyValueTags) " ++ Title s ++ "TagKeys() []*" ++ keyType ++ " {";
      tab ++ "result := make([]*" ++ keyType ++ ", 0, len(tags))";
      "";
      tab ++ "for k := range tags.Map() {";
      tab ++ tab ++ "tagKey := &" ++ keyType ++ "{";
      tab ++ tab ++ tab ++ ServiceTagTypeKeyField s ++ ": aws.String(k),";
      tab ++ tab ++ "}";
      "";
      tab ++ tab ++ "result = append(result, tagKey)";
      tab ++ "}";
      "";
      tab ++ "return result";
      "}" ].

Definition tagsBlock (s : string) : list string :=
  let tagType := TagPackage s ++ "." ++ ServiceTagType s in
  [ "";
    "// " ++ Title s ++ "Tags returns " ++ s ++ " service tags.";
    "func (tags KeyValueTags) " ++ Title s ++ "Tags() []*" ++ tagType ++ " {";
    tab ++ "result := make([]*" ++ tagType ++ ", 0, len(tags))";
    "";
    tab ++ "for k, v := range tags.Map() {";
    tab ++ tab ++ "tag := &" ++ tagType ++ "{";
    tab ++ tab ++ tab ++ ServiceTagTypeKeyField s ++ ":   aws.String(k),";
    tab ++ tab ++ tab ++ ServiceTagTypeValueField s ++ ": aws.String(v),";
    tab ++ tab ++ "}";
    "";
    tab ++ tab ++ "result = append(result, tag)";
    tab ++ "}";
    "";
    tab ++ "return result";
    "}";
    "";
    "// " ++ Title s ++ "KeyValueTags creates KeyValueTags from " ++ s
      ++ " service tags.";
    "func " ++ Title s ++ "KeyValueTags(tags []*" ++ tagType ++ ") KeyValueTags {";
    tab ++ "m := make(map[string]*string, len(tags))";
    "";
    tab ++ "for _, tag := range tags {";
    tab ++ tab ++ "m[aws.StringValue(tag." ++ ServiceTagTypeKeyField s
      ++ ")] = tag." ++ ServiceTagTypeValueField s;
    tab ++ "}";
    "";
    tab ++ "return New(m)";
    "}" ].

(** Body of the second {{- range .SliceServiceNames }}. *)
Definition sliceBlock (s : string) : list string :=
  tagKeysBlock s ++ tagsBlock s.

Definition templateLines (data : TemplateData) : list string :=
  header
  ++ flat_map importLines (SliceServiceNames data)
  ++ mapHeading
  ++ flat_map mapBlock (MapServiceNames data)
  ++ sliceHeading
  ++ flat_map sliceBlock (SliceServiceNames data)
  ++ [ "" ].

(** [tmpl.Execute(&buffer, templateData)]. *)
Definition templateBody (data : TemplateData) : string :=
  unlines (templateLines data).

(** *** [main]

    [formatSource] is [format.Source] of the Go standard library: the
    formatted source, or an error. The outcome of [main] is the file it
    writes, or the message it dies with. *)
Variable formatSource : string -> string + string.

Inductive Outcome :=
| Wrote (name contents : string)
| Fatal (message : string).

(** Always sort to reduce any potential generation churn. *)
Definition templateDataOf (maps slices : list string) : TemplateData :=
  {| MapServiceNames := sortStrings maps;
     SliceServiceNames := sortStrings slices |}.

Definition generate (maps slices : list string) : Outcome :=
  let templateData := templateDataOf maps slices in
  let buffer := templateBody templateData in
  match formatSource buffer with
  | inr err => Fatal ("error formatting generated file: " ++ err)
  | inl generatedFileContents => Wrote filename generatedFileContents
  end.

Definition main : Outcome := generate mapServiceNames sliceServiceNames.

End Template.

(** *** Reading the generated text back

    A top-level function declaration of the generated Go file is a line
    that starts with [func ]; its name is what stands before the
    parameter list, after the receiver when there is one. *)
Fixpoint dropThrough (c : ascii) (s : string) : string :=
  match s with
  | EmptyString => EmptyString
  | String d s' => if Ascii.eqb c d then s' else dropThrough c s'
  end.

Fixpoint takeUntil (c : ascii) (s : string) : string :=
  match s with
  | EmptyString => EmptyString
  | String d s' => if Ascii.eqb c d then EmptyString else String d (takeUntil c s')
  end.

Definition dropSpace (s : string) : string :=
  match s with
  | String " " s' => s'
  | _ => s
  end.

Definition declName (line : string) : option string :=
  match line with
  | String "f" (String "u" (String "n" (String "c" (String " " rest)))) =>
      match rest with
      | String "(" recv => Some (takeUntil "(" (dropSpace (dropThrough ")" recv)))
      | _ => Some (takeUntil "(" rest)
      end
  | _ => None
  end.

Definition isDecl (line : string) : bool :=
  match declName line with Some _ => true | None => false end.

(** The function declarations of a text, in the order they are written. *)
Definition funcDecls (lines : list string) : list string :=
  List.filter isDecl lines.

(** The declarations of the function called [name]. *)
Definition declsNamed (name : string) (lines : list string) : list string :=
  List.filter
    (fun l => match declName l with
              | Some n => String.eqb n name
              | None => false
              end) lines.

(** The body of a declaration: the lines after it, up to the closing
    brace in the first column. *)
Fixpoint bodyFrom (lines : list string) : list string :=
  match lines with
  | [] => []
  | l :: rest => if String.eqb l "}" then [] else l :: bodyFrom rest
  end.

(** The body of the first declaration of the function called [name]. *)
Fixpoint bodyOf (name : string) (lines : list string) : list string :=
  match lines with
  | [] => []
  | l :: rest =>
      match declName l with
      | Some n => if String.eqb n name then bodyFrom rest else bodyOf name rest
      | None => bodyOf name rest
      end
  end.

(** The names of the functions a text declares, in order. *)
Definition declaredNames (lines : list string) : list string :=
  omap declName (funcDecls lines).

(** *** What the generated functions compute *)

(** Modelled from the spec: the generic key/value tag container
    ([KeyValueTags] of package keyvaluetags, whose source is not part of
    these files) is a finite map from tag key to tag value; [Map] gives
    its content as a plain map. [New], which builds a container from a
    map of string pointers, is a parameter of the generated functions
    below. *)
Definition Map (tags : gmap string string) : gmap string string := tags.

(** [aws.String], [aws.StringValue], [aws.StringMap] of the SDK: a
    [*string] is an optional string. *)
Definition aws_String (s : string) : option string := Some s.
Definition aws_StringValue (p : option string) : string := default "" p.
Definition aws_StringMap (m : gmap string string) : gmap string (option string) :=
  aws_String <$> m.

(** A value of one of the SDK's tag struct types: the type and the
    fields, each a [*string]. *)
Record TagStruct := {
  structType : string;
  structFields : gmap string (option string)
}.

(** [tag.F]: a field that was never set holds nil. *)
Definition field (f : string) (tag : TagStruct) : option string :=
  default None (structFields tag !! f).

Section Generated.
Variable TagPackage : string -> string.
Variable New : gmap string (option string) -> gmap string string.

(** [func (tags KeyValueTags) {{Title}}Tags() map[string]*string] *)
Definition MapTags (tags : gmap string string) : gmap string (option string) :=
  aws_StringMap (Map tags).

(** [func {{Title}}KeyValueTags(tags map[string]*string) KeyValueTags] *)
Definition MapKeyValueTags (tags : gmap string (option string)) : gmap string string :=
  New tags.

(** [func (tags KeyValueTags) {{Title}}Tags() []*PKG.TAG], with the
    loop over [tags.Map()] visiting the entries in the order [entries]
    (Go leaves the order of a map iteration open). *)
Definition SliceTagsIn (s : string) (entries : list (string * string))
  : list TagStruct :=
  foldl
    (fun result kv =>
       let tag :=
         {| structType := TagPackage s ++ "." ++ ServiceTagType s;
            structFields :=
              <[ServiceTagTypeValueField s := aws_String (snd kv)]>
                (<[ServiceTagTypeKeyField s := aws_String (fst kv)]> ∅) |} in
       (result ++ [tag])%list)
    [] entries.

Definition SliceTags (s : string) (tags : gmap string string) : list TagStruct :=
  SliceTagsIn s (map_to_list (Map tags)).

(** [func {{Title}}KeyValueTags(tags []*PKG.TAG) KeyValueTags] *)
Definition SliceKeyValueTags (s : string) (tags : list TagStruct)
  : gmap string string :=
  let m :=
    foldl
      (fun (m : gmap string (option string)) tag =>
         <[aws_StringValue (field (ServiceTagTypeKeyField s) tag)
           := field (ServiceTagTypeValueField s) tag]> m)
      ∅ tags in
  New m.

(** [func (tags KeyValueTags) {{Title}}TagKeys() []*PKG.KEYTYPE], which
    the template writes for a service with a tag key type; the loop over
    the keys of [tags.Map()] visits them in the order of [entries]. *)
Definition SliceTagKeysIn (s : string) (entries : list (string * string))
  : list TagStruct :=
  foldl
    (fun result kv =>
       let tagKey :=
         {| structType := TagPackage s ++ "." ++ ServiceTagKeyType s;
            structFields :=
              <[ServiceTagTypeKeyField s := aws_String (fst kv)]> ∅ |} in
       (result ++ [tagKey])%list)
    [] entries.

Definition SliceTagKeys (s : string) (tags : gmap string string) : list TagStruct :=
  SliceTagKeysIn s (map_to_list (Map tags)).
End Generated.

End ServiceTags.

(* ===================================================================== *)
(** ** The load-balancer listener resource *)
(* ===================================================================== *)

Module LbListener.
Import Text.

(** [time.Duration] counts nanoseconds. *)
Definition Millisecond : Z := 1000000.
Definition Second : Z := 1000 * Millisecond.
Definition Minute : Z := 60 * Second.

(** Error codes of the elbv2 service package. *)
Definition ErrCodeCertificateNotFoundException : string := "CertificateNotFound".
Definition ErrCodeListenerNotFoundException : string := "ListenerNotFound".

(** Go [error] values: a service error of the SDK ([awserr.Error], with
    code and message), a plain text error ([errors.New], [fmt.Errorf]),
    and the two errors of the wait helper. *)
Inductive error :=
| AwsErr (code message : string)
| TextErr (text : string)
| TimeoutError
| UnexpectedStateError (state : string).

Definition errorText (e : error) : string :=
  match e with
  | AwsErr code message => code ++ ": " ++ message
  | TextErr text => text
  | TimeoutError => "timeout while waiting for state"
  | UnexpectedStateError state => "unexpected state '" ++ state ++ "'"
  end.

(** [fmt.Errorf(format ++ "%s", err)]. *)
Definition Errorf (prefix : string) (err : error) : error :=
  TextErr (prefix ++ errorText err).

(** Modelled from the spec: [isAWSErr] (a helper of package aws defined
    outside these files) recognises a named error code: the error is a
    service error with this code whose message contains [message]. *)
Definition isAWSErr (err : error) (code message : string) : bool :=
  match err with
  | AwsErr c m => String.eqb c code && Contains m message
  | _ => false
  end.

(** *** SDK types; a pointer field is an option *)
Record Certificate := { CertificateArn : option string }.

Record Action := {
  TargetGroupArn : option string;
  ActionType : option string
}.

Record Listener := {
  ListenerArn : option string;
  LoadBalancerArn : option string;
  Port : option Z;
  Protocol : option string;
  SslPolicy : option string;
  Certificates : list (option Certificate);
  DefaultActions : list Action
}.

Record CreateListenerInput := {
  createLoadBalancerArn : option string;
  createPort : option Z;
  createProtocol : option string;
  createSslPolicy : option string;
  createCertificates : list (option Certificate);
  createDefaultActions : list Action
}.

Record ModifyListenerInput := {
  modifyListenerArn : option string;
  modifyPort : option Z;
  modifyProtocol : option string;
  modifySslPolicy : option string;
  modifyCertificates : list (option Certificate);
  modifyDefaultActions : list Action
}.

(** [CreateListenerOutput] and [DescribeListenersOutput]. *)
Record ListenersOutput := { Listeners : list Listener }.

(** *** The resource data of the host engine *)
Record ResourceData := {
  Id : string;
  arn : string;
  load_balancer_arn : string;
  port : Z;
  protocol : string;
  ssl_policy : string;
  certificate_arn : string;
  default_action : list (string * string) (* target_group_arn, type *)
}.

Definition SetId (v : string) (d : ResourceData) : ResourceData :=
  {| Id := v; arn := arn d; load_balancer_arn := load_balancer_arn d;
     port := port d; protocol := protocol d; ssl_policy := ssl_policy d;
     certificate_arn := certificate_arn d;
     default_action := default_action d |}.

(** [d.GetOk]: the value, and whether it is set to a non-zero value. *)
Definition GetOk (v : string) : string * bool := (v, negb (String.eqb v "")).

(** *** The remote service and the clock

    Every call of the API is answered by the service after some time.
    The service is a script: the n-th call of an operation gets the
    n-th reply of that operation. The world keeps the clock (in
    nanoseconds), the pause the wait helper makes between two polls, and
    the exchanges so far, the latest first. *)
Record Reply (A : Type) := { latency : N; result : A + error }.
Arguments latency {A} _.
Arguments result {A} _.

Record Service := {
  createReplies : nat -> Reply ListenersOutput;
  describeReplies : nat -> Reply ListenersOutput;
  modifyReplies : nat -> Reply unit;
  deleteReplies : nat -> Reply unit
}.

Inductive Exchange :=
| XCreate (input : CreateListenerInput) (out : ListenersOutput + error)
| XDescribe (listenerArn : string) (out : ListenersOutput + error)
| XModify (input : ModifyListenerInput) (out : unit + error)
| XDelete (listenerArn : string) (out : unit + error).

Record Event := { started : Z; finished : Z; exchange : Exchange }.

Record World := {
  clock : Z;
  pollInterval : positive;
  service : Service;
  trace : list Event
}.

Definition isCreate (ev : Event) : bool :=
  match exchange ev with XCreate _ _ => true | _ => false end.
Definition isDescribe (ev : Event) : bool :=
  match exchange ev with XDescribe _ _ => true | _ => false end.
Definition isModify (ev : Event) : bool :=
  match exchange ev with XModify _ _ => true | _ => false end.
Definition isDelete (ev : Event) : bool :=
  match exchange ev with XDelete _ _ => true | _ => false end.

Definition calls (kind : Event -> bool) (w : World) : nat :=
  length (List.filter kind (trace w)).

Definition exchanged {A} (r : Reply A) (x : Exchange) (w : World) : World :=
  let t := clock w + Z.of_N (latency r) in
  {| clock := t; pollInterval := pollInterval w; service := service w;
     trace := {| started := clock w; finished := t; exchange := x |} :: trace w |}.

Definition CreateListener (params : CreateListenerInput) (w : World)
  : (ListenersOutput + error) * World :=
  let r := createReplies (service w) (calls isCreate w) in
  (result r, exchanged r (XCreate params (result r)) w).

Definition DescribeListeners (listenerArn : string) (w : World)
  : (ListenersOutput + error) * World :=
  let r := describeReplies (service w) (calls isDescribe w) in
  (result r, exchanged r (XDescribe listenerArn (result r)) w).

Definition ModifyListener (params : ModifyListenerInput) (w : World)
  : (unit + error) * World :=
  let r := modifyReplies (service w) (calls isModify w) in
  (result r, exchanged r (XModify params (result r)) w).

Definition DeleteListener (listenerArn : string) (w : World)
  : (unit + error) * World :=
  let r := deleteReplies (service w) (calls isDelete w) in
  (result r, exchanged r (XDelete listenerArn (result r)) w).

Definition sleep (w : World) : World :=
  {| clock := clock w + Z.pos (pollInterval w); pollInterval := pollInterval w;
     service := service w; trace := trace w |}.

(** *** The wait helper of the host engine *)

(** Modelled from the spec: [resource.StateChangeConf] belongs to the
    helper library of the host engine, which is not part of these files.
    It names the pending and the target states, the refresh function to
    poll and the timeout of the wait. [X] is the type of the variables
    the polled closure writes to. *)
Record StateChangeConf (R X : Type) := {
  Pending : list string;
  Target : list string;
  Refresh : X -> World -> (option R * string * option error) * X * World;
  Timeout : Z
}.
Arguments Pending {R X} _.
Arguments Target {R X} _.
Arguments Refresh {R X} _.
Arguments Timeout {R X} _.

Definition inStates (s : string) (l : list string) : bool :=
  existsb (String.eqb s) l.

(** Modelled from the spec: the loop of [WaitForState] (poll a
    describe-call every interval until the state is observed, with a
    timeout). The refresh function is polled, with a pause after every
    pending answer, until it reports a target state, fails, or the
    timeout has elapsed: no poll starts once the deadline has passed.
    The loop runs on a budget of polls that a wait of this length with
    this pause cannot exhaust (see [polls_fuel] and [waitLoop_trace]
    below). *)
Fixpoint waitLoop {R X} (fuel : nat) (deadline : Z)
    (conf : StateChangeConf R X) (x : X) (w : World)
  : (option R * option error) * X * World :=
  match fuel with
  | O => ((None, Some TimeoutError), x, w)
  | S fuel' =>
      if deadline <=? clock w then ((None, Some TimeoutError), x, w)
      else
        let '((res, currentState, err), x1, w1) := Refresh conf x w in
        match err with
        | Some e => ((None, Some e), x1, w1)
        | None =>
            if inStates currentState (Target conf) then ((res, None), x1, w1)
            else if inStates currentState (Pending conf)
                 then waitLoop fuel' deadline conf x1 (sleep w1)
                 else ((None, Some (UnexpectedStateError currentState)), x1, w1)
        end
  end.

(** The polls that fit into [timeout], and two to spare. *)
Definition polls (timeout : Z) (w : World) : nat :=
  S (S (Z.to_nat (timeout / Z.pos (pollInterval w)))).

(** Modelled from the spec: [WaitForState] of the helper library, the
    loop with the deadline [Timeout] from now. *)
Definition WaitForState {R X} (conf : StateChangeConf R X) (x : X) (w : World)
  : (option R * option error) * X * World :=
  waitLoop (polls (Timeout conf) w) (clock w + Timeout conf) conf x w.

(** Modelled from the spec: [resource.RetryError], with its two
    constructors, says whether the error of an attempt may be retried. *)
Record RetryError := { Err : error; Retryable : bool }.
Definition RetryableError (err : error) : RetryError :=
  {| Err := err; Retryable := true |}.
Definition NonRetryableError (err : error) : RetryError :=
  {| Err := err; Retryable := false |}.

Definition RetryFunc (X : Type) : Type :=
  X -> World -> option RetryError * X * World.

(** Modelled from the spec: the refresh function under which
    [resource.Retry] polls [f]; it keeps the last error of [f]. *)
Definition retryRefresh {X} (f : RetryFunc X)
  : X * option error -> World
    -> (option Z * string * option error) * (X * option error) * World :=
  fun st w =>
    let '(rerr, x1, w1) := f (fst st) w in
    match rerr with
    | None => ((Some 42, "success", None), (x1, None), w1)
    | Some re =>
        if Retryable re
        then ((Some 42, "retryableerror", None), (x1, Some (Err re)), w1)
        else ((None, "quit", Some (Err re)), (x1, Some (Err re)), w1)
    end.

(** Modelled from the spec: [resource.Retry] of the helper library
    (retry for up to the timeout on a retryable error): the wait loop
    over [f], giving back the last error of [f], or the timeout error
    when [f] was never run. *)
Definition Retry {X} (timeout : Z) (f : RetryFunc X) (x : X) (w : World)
  : option error * X * World :=
  let c := {| Pending := [ "retryableerror" ];
              Target := [ "success" ];
              Refresh := retryRefresh f;
              Timeout := timeout |} in
  let '((_, waitErr), (x1, resultErr), w1) := WaitForState c (x, None) w in
  match resultErr with
  | None => (waitErr, x1, w1)
  | Some e => (Some e, x1, w1)
  end.

(** *** The lifecycle operations *)

(** What an operation gives back to the engine: nil, an error, or a
    run-time panic (a nil dereference). *)
Inductive Result :=
| Ok
| Failed (err : error)
| Panicked.

Definition certificatesOf (d : ResourceData) : list (option Certificate) :=
  let '(certificateArn, ok) := GetOk (certificate_arn d) in
  if ok then [ Some {| CertificateArn := Some certificateArn |} ] else [].

Definition sslPolicyOf (d : ResourceData) : option string :=
  let '(sslPolicy, ok) := GetOk (ssl_policy d) in
  if ok then Some sslPolicy else None.

Definition defaultActionsOf (d : ResourceData) : list Action :=
  let defaultActions := default_action d in
  if (length defaultActions =? 1)%nat
  then List.map (fun a => {| TargetGroupArn := Some (fst a);
                            ActionType := Some (snd a) |}) defaultActions
  else [].

Definition resourceAwsLbListenerReadData (d : ResourceData) (listener : Listener)
  : ResourceData :=
  {| Id := Id d;
     arn := default "" (ListenerArn listener);
     load_balancer_arn := default "" (LoadBalancerArn listener);
     port := default 0 (Port listener);
     protocol := default "" (Protocol listener);
     ssl_policy := default "" (SslPolicy listener);
     certificate_arn :=
       match Certificates listener with
       | [ Some c ] => default "" (CertificateArn c)
       | _ => certificate_arn d
       end;
     default_action :=
       List.map (fun a => (default "" (TargetGroupArn a),
                           default "" (ActionType a)))
                (DefaultActions listener) |}.

Definition resourceAwsLbListenerRefreshFunc (id : string) (w : World)
  : (option Listener * string * option error) * World :=
  let '(out, w1) := DescribeListeners id w in
  match out with
  | inr err =>
      if isAWSErr err ErrCodeListenerNotFoundException ""
      then (* resp = nil; err = nil *) ((None, "", None), w1)
      else ((None, "", Some (Errorf "Error retrieving Listener: " err)), w1)
  | inl resp =>
      if negb (length (Listeners resp) =? 1)%nat
      then ((None, "",
             Some (TextErr ("Error retrieving Listener " ++ quote ++ id ++ quote
                            ++ " (expected 1, got "
                            ++ pretty (length (Listeners resp)) ++ ")"))), w1)
      else ((head (Listeners resp), "exists", None), w1)
  end.

(** The closure passed to [resource.Retry] by Create; it assigns [resp]. *)
Definition createAttempt (params : CreateListenerInput)
  : RetryFunc (option ListenersOutput) :=
  fun _ w =>
    let '(out, w1) := CreateListener params w in
    match out with
    | inr err =>
        if isAWSErr err ErrCodeCertificateNotFoundException ""
        then (Some (RetryableError err), Some {| Listeners := [] |}, w1)
        else (Some (NonRetryableError err), Some {| Listeners := [] |}, w1)
    | inl resp => (None, Some resp, w1)
    end.

(** [resource.Retry(5*time.Minute, func() ...)] as Create calls it. *)
Definition createRetry (params : CreateListenerInput) (w : World)
  : option error * option ListenersOutput * World :=
  Retry (5 * Minute) (createAttempt params) None w.

Definition resourceAwsLbListenerCreate (d : ResourceData) (w : World)
  : Result * ResourceData * World :=
  let lbArn := load_balancer_arn d in
  let params :=
    {| createLoadBalancerArn := Some lbArn;
       createPort := Some (port d);
       createProtocol := Some (protocol d);
       createSslPolicy := sslPolicyOf d;
       createCertificates := certificatesOf d;
       createDefaultActions := defaultActionsOf d |} in
  let '(err, resp, w1) := createRetry params w in
  match err with
  | Some e => (Failed (Errorf "Error creating LB Listener: " e), d, w1)
  | None =>
      match resp with
      | None => (Panicked, d, w1)
      | Some resp =>
          match Listeners resp with
          | [] =>
              (Failed (TextErr
                 "Error creating LB Listener: no listeners returned in response"),
               d, w1)
          | l :: _ =>
              match ListenerArn l with
              | None => (Panicked, d, w1)
              | Some listenerArn =>
                  let d1 := SetId listenerArn d in
                  (* Ensure that the listener is available from the
                     describe call, since AWS may not return it right
                     away. *)
                  let stateConf :=
                    {| Pending := [ "" ];
                       Target := [ "exists" ];
                       Refresh := fun (_ : unit) w =>
                         let '(r, w') :=
                           resourceAwsLbListenerRefreshFunc (Id d1) w in
                         (r, tt, w');
                       Timeout := 3 * Minute |} in
                  let '((lbRaw, err), _, w2) := WaitForState stateConf tt w1 in
                  match err with
                  | Some _ =>
                      (Failed (TextErr ("Error waiting for LB Listener ("
                                        ++ Id d1 ++ ") to exist")), d1, w2)
                  | None =>
                      match lbRaw with
                      | None => (Panicked, d1, w2)
                      | Some listener =>
                          (Ok, resourceAwsLbListenerReadData d1 listener, w2)
                      end
                  end
              end
          end
      end
  end.

Definition resourceAwsLbListenerRead (d : ResourceData) (w : World)
  : Result * ResourceData * World :=
  let '((lbRaw, _, err), w1) := resourceAwsLbListenerRefreshFunc (Id d) w in
  match err with
  | Some e =>
      if isAWSErr e ErrCodeListenerNotFoundException ""
      then (Ok, SetId "" d, w1)
      else (Failed (Errorf "Error retrieving Listener: " e), d, w1)
  | None =>
      match lbRaw with
      | None => (Ok, SetId "" d, w1)
      | Some listener => (Ok, resourceAwsLbListenerReadData d listener, w1)
      end
  end.

(** The closure passed to [resource.Retry] by Update. *)
Definition modifyAttempt (params : ModifyListenerInput) : RetryFunc unit :=
  fun _ w =>
    let '(out, w1) := ModifyListener params w in
    match out with
    | inr err =>
        if isAWSErr err ErrCodeCertificateNotFoundException ""
        then (Some (RetryableError err), tt, w1)
        else (Some (NonRetryableError err), tt, w1)
    | inl _ => (None, tt, w1)
    end.

(** [resource.Retry(5*time.Minute, func() ...)] as Update calls it. *)
Definition modifyRetry (params : ModifyListenerInput) (w : World)
  : option error * unit * World :=
  Retry (5 * Minute) (modifyAttempt params) tt w.

Definition resourceAwsLbListenerUpdate (d : ResourceData) (w : World)
  : Result * ResourceData * World :=
  let params :=
    {| modifyListenerArn := Some (Id d);
       modifyPort := Some (port d);
       modifyProtocol := Some (protocol d);
       modifySslPolicy := sslPolicyOf d;
       modifyCertificates := certificatesOf d;
       modifyDefaultActions := defaultActionsOf d |} in
  let '(err, _, w1) := modifyRetry params w in
  match err with
  | Some e => (Failed (Errorf "Error modifying LB Listener: " e), d, w1)
  | None => resourceAwsLbListenerRead d w1
  end.

Definition resourceAwsLbListenerDelete (d : ResourceData) (w : World)
  : Result * ResourceData * World :=
  let '(out, w1) := DeleteListener (Id d) w in
  match out with
  | inr err => (Failed (Errorf "Error deleting Listener: " err), d, w1)
  | inl _ => (Ok, d, w1)
  end.

(** *** Reading a trace *)

(** The world right after the exchange [ev]. *)
Definition after (ev : Event) (w : World) : World :=
  {| clock := finished ev; pollInterval := pollInterval w;
     service := service w; trace := ev :: trace w |}.

(** The exchanges made between the world [w] and the later world [w'],
    the earliest first. *)
Definition since (w w' : World) : list Event :=
  reverse (take (length (trace w') - length (trace w)) (trace w')).

(** The error the service answered with, if any. *)
Definition failure (ev : Event) : option error :=
  match exchange ev with
  | XCreate _ (inr e) | XDescribe _ (inr e)
  | XModify _ (inr e) | XDelete _ (inr e) => Some e
  | _ => None
  end.

(** The service answered with the error code [code]. *)
Definition failedWith (code : string) (ev : Event) : bool :=
  match failure ev with
  | Some e => isAWSErr e code ""
  | None => false
  end.

(** The listeners of a described (or created) answer. *)
Definition listenersOf (ev : Event) : option (list Listener) :=
  match exchange ev with
  | XCreate _ (inl out) | XDescribe _ (inl out) => Some (Listeners out)
  | _ => None
  end.

(** What of a reply the retry policy can depend on: how long it took and
    the error, if any. *)
Definition errorOutcome {A} (r : Reply A) : N * option error :=
  (latency r, match result r with inl _ => None | inr e => Some e end).

Definition summary (ev : Event) : Z * Z * option error :=
  (started ev, finished ev, failure ev).

(** How the wait loop reads the answer of a refresh: poll again, or stop
    with a result. *)
Definition pollAgain {R X} (conf : StateChangeConf R X)
    (a : option R * string * option error) : bool :=
  match a with
  | (_, st, None) => negb (inStates st (Target conf)) && inStates st (Pending conf)
  | (_, _, Some _) => false
  end.

Definition stopWith {R X} (conf : StateChangeConf R X)
    (a : option R * string * option error) : option R * option error :=
  match a with
  | (_, _, Some e) => (None, Some e)
  | (res, st, None) =>
      if inStates st (Target conf) then (res, None)
      else (None, Some (UnexpectedStateError st))
  end.

(** The exchanges of one operation between two worlds. *)
Definition createCalls (w w' : World) : list Event :=
  List.filter isCreate (since w w').
Definition describeCalls (w w' : World) : list Event :=
  List.filter isDescribe (since w w').
Definition modifyCalls (w w' : World) : list Event :=
  List.filter isModify (since w w').
Definition deleteCalls (w w' : World) : list Event :=
  List.filter isDelete (since w w').

(** What the closures of Create and Update answer to [resource.Retry]
    after the exchange [ev]. *)
Definition certificateRetry (ev : Event) : option RetryError :=
  match failure ev with
  | Some e =>
      Some (if isAWSErr e ErrCodeCertificateNotFoundException ""
            then RetryableError e else NonRetryableError e)
  | None => None
  end.

Definition retryable (v : option RetryError) : bool :=
  match v with Some re => Retryable re | None => false end.

(** The value of [resp] in Create after the exchange [ev]. *)
Definition responseOf (ev : Event) : option ListenersOutput :=
  match exchange ev with
  | XCreate _ (inl out) => Some out
  | _ => Some {| Listeners := [] |}
  end.

(** What the refresh function answers after the exchange [ev]. *)
Definition refreshAnswer (id : string) (ev : Event)
  : option Listener * string * option error :=
  match failure ev with
  | Some e =>
      if isAWSErr e ErrCodeListenerNotFoundException ""
      then (None, "", None)
      else (None, "", Some (Errorf "Error retrieving Listener: " e))
  | None =>
      match listenersOf ev with
      | Some [ l ] => (Some l, "exists", None)
      | Some ls =>
          (None, "",
           Some (TextErr ("Error retrieving Listener " ++ quote ++ id ++ quote
                          ++ " (expected 1, got " ++ pretty (length ls) ++ ")")))
      | None => (None, "", None)
      end
  end.

(** The exchange [ev] is a describe call for the listener [id]. *)
Definition describesArn (id : string) (ev : Event) : bool :=
  match exchange ev with
  | XDescribe a _ => String.eqb a id
  | _ => false
  end.

(** The request Create builds from the configuration. *)
Definition createInputOf (d : ResourceData) : CreateListenerInput :=
  {| createLoadBalancerArn := Some (load_balancer_arn d);
     createPort := Some (port d);
     createProtocol := Some (protocol d);
     createSslPolicy := sslPolicyOf d;
     createCertificates := certificatesOf d;
     createDefaultActions := defaultActionsOf d |}.

(** The request Update builds from the configuration. *)
Definition modifyInputOf (d : ResourceData) : ModifyListenerInput :=
  {| modifyListenerArn := Some (Id d);
     modifyPort := Some (port d);
     modifyProtocol := Some (protocol d);
     modifySslPolicy := sslPolicyOf d;
     modifyCertificates := certificatesOf d;
     modifyDefaultActions := defaultActionsOf d |}.

(** *** Sample worlds *)
Module Samples.

Definition listener1 : Listener :=
  {| ListenerArn := Some "arn:listener/1";
     LoadBalancerArn := Some "arn:loadbalancer/1";
     Port := Some 443;
     Protocol := Some "HTTPS";
     SslPolicy := None;
     Certificates := [];
     DefaultActions := [] |}.

Definition data1 : ResourceData :=
  {| Id := "arn:listener/1"; arn := ""; load_balancer_arn := "arn:loadbalancer/1";
     port := 443; protocol := "HTTPS"; ssl_policy := "";
     certificate_arn := "arn:certificate/1";
     default_action := [ ("arn:targetgroup/1", "forward") ] |}.

Definition answers {A} (a : A) : Reply A := {| latency := 1000; result := inl a |}.
Definition fails {A} (e : error) : Reply A := {| latency := 1000; result := inr e |}.

Definition certificateNotFound : error :=
  AwsErr ErrCodeCertificateNotFoundException "certificate not found".
Definition listenerNotFound : error :=
  AwsErr ErrCodeListenerNotFoundException "listener not found".

(** Every operation fails once with the certificate error and succeeds
    from then on; the listener is visible at once. *)
Definition flakyService : Service :=
  {| createReplies := fun n =>
       match n with
       | O => fails certificateNotFound
       | _ => answers {| Listeners := [ listener1 ] |}
       end;
     describeReplies := fun _ => answers {| Listeners := [ listener1 ] |};
     modifyReplies := fun n =>
       match n with O => fails certificateNotFound | _ => answers tt end;
     deleteReplies := fun n =>
       match n with O => fails certificateNotFound | _ => answers tt end |}.

(** CreateListener succeeds with no listener in the answer; a describe
    call finds no listener either. *)
Definition emptyService : Service :=
  {| createReplies := fun _ => answers {| Listeners := [] |};
     describeReplies := fun _ => answers {| Listeners := [] |};
     modifyReplies := fun _ => answers tt;
     deleteReplies := fun _ => answers tt |}.

Definition worldOf (s : Service) : World :=
  {| clock := 0; pollInterval := 10000000000; service := s; trace := [] |}.

(** The resource data before Create has run: no ID yet. *)
Definition newData : ResourceData := SetId "" data1.

(** The listener the service holds after the request built from [data1]. *)
Definition mirror1 : Listener :=
  {| ListenerArn := Some "arn:listener/1";
     LoadBalancerArn := Some "arn:loadbalancer/1";
     Port := Some 443;
     Protocol := Some "HTTPS";
     SslPolicy := None;
     Certificates := [ Some {| CertificateArn := Some "arn:certificate/1" |} ];
     DefaultActions := [ {| TargetGroupArn := Some "arn:targetgroup/1";
                            ActionType := Some "forward" |} ] |}.

End Samples.

End LbListener.

(* ===================================================================== *)
(** ** Properties of the generator *)
(* ===================================================================== *)

Section StringOrder.
Import ServiceTags.

Lemma ascii_compare_N (a b : ascii) :
  Ascii.compare a b = N.compare (N_of_ascii a) (N_of_ascii b).
Proof. reflexivity. Qed.

Lemma string_compare_trans_le (a b c : string) :
  String.compare a b <> Gt -> String.compare b c <> Gt ->
  String.compare a c <> Gt.
Proof.
  revert b c. induction a as [|x a IH]; intros [|y b] [|z c]; simpl; try congruence.
  rewrite !ascii_compare_N.
  destruct (N.compare_spec (N_of_ascii x) (N_of_ascii y)) as [Hxy|Hxy|Hxy];
    destruct (N.compare_spec (N_of_ascii y) (N_of_ascii z)) as [Hyz|Hyz|Hyz];
    destruct (N.compare_spec (N_of_ascii x) (N_of_ascii z)) as [Hxz|Hxz|Hxz];
    try congruence; try lia.
  apply IH.
Qed.

#[local] Instance string_le_trans : Transitive string_le.
Proof.
  intros a b c. unfold string_le, String.leb. intros Hab Hbc.
  pose proof (string_compare_trans_le a b c) as H.
  destruct (String.compare a b); try discriminate;
    destruct (String.compare b c); try discriminate;
    destruct (String.compare a c); try reflexivity;
    exfalso; apply H; congruence.
Qed.

#[local] Instance string_le_total : Total string_le.
Proof. intros a b. apply String.leb_total. Qed.

#[local] Instance string_le_antisym : AntiSymm (=) string_le.
Proof. intros a b. apply String.leb_antisym. Qed.

Lemma sortStrings_Sorted (l : list string) : Sorted string_le (sortStrings l).
Proof. apply Sorted_merge_sort, _. Qed.

Lemma sortStrings_Permutation (l : list string) : sortStrings l ≡ₚ l.
Proof. apply merge_sort_Permutation. Qed.

(** Sorting forgets the order in which the names were listed. *)
Lemma sortStrings_perm (l l' : list string) :
  l ≡ₚ l' -> sortStrings l = sortStrings l'.
Proof.
  intros Hp. apply (Sorted_unique string_le); try apply sortStrings_Sorted.
  rewrite !sortStrings_Permutation. exact Hp.
Qed.
End StringOrder.

Section GeneratorOutput.
Import Text ServiceTags.
Variable TagPackage : string -> string.

Lemma filter_flat_map_nil {A B} (P : B -> bool) (f : A -> list B) (l : list A) :
  (forall a, List.filter P (f a) = []) -> List.filter P (flat_map f l) = [].
Proof.
  intros Hf. induction l as [|a l IH]; simpl; [reflexivity|].
  rewrite List.filter_app, Hf, IH. reflexivity.
Qed.

Lemma filter_flat_map {A B} (P : B -> bool) (f : A -> list B) (l : list A) :
  List.filter P (flat_map f l) = flat_map (fun a => List.filter P (f a)) l.
Proof.
  induction l as [|a l IH]; simpl; [reflexivity|].
  rewrite List.filter_app, IH. reflexivity.
Qed.

(** The import lines declare no function. *)
Lemma importLines_no_decl (P : string -> bool) (s : string) :
  (forall l, P l = true -> isDecl l = true) ->
  List.filter P (importLines TagPackage s) = [].
Proof.
  intros HP. unfold importLines. destruct (String.eqb s (TagPackage s)); [|reflexivity].
  simpl. destruct (P _) eqn:E; [|reflexivity].
  apply HP in E. discriminate E.
Qed.

Lemma fixed_lines_no_decl (P : string -> bool) :
  (forall l, P l = true -> isDecl l = true) ->
  List.filter P header = [] /\ List.filter P mapHeading = []
  /\ List.filter P sliceHeading = [] /\ List.filter P [ "" ] = [].
Proof.
  intros HP.
  assert (Hno : forall l, isDecl l = false -> P l = false).
  { intros l Hl. destruct (P l) eqn:E; [|reflexivity].
    apply HP in E. congruence. }
  unfold header, mapHeading, sliceHeading; simpl.
  rewrite !Hno by reflexivity. auto.
Qed.

(** Only the two ranges over the service names write declarations. *)
Lemma filter_templateLines (P : string -> bool) (data : TemplateData) :
  (forall l, P l = true -> isDecl l = true) ->
  List.filter P (templateLines TagPackage data)
  = (flat_map (fun s => List.filter P (mapBlock s)) (MapServiceNames data)
     ++ flat_map (fun s => List.filter P (sliceBlock TagPackage s))
                 (SliceServiceNames data))%list.
Proof.
  intros HP. unfold templateLines.
  destruct (fixed_lines_no_decl P HP) as (H1 & H2 & H3 & H4).
  rewrite !List.filter_app, H1, H2, H3, H4.
  rewrite (filter_flat_map_nil P (importLines TagPackage))
    by (intros a; apply importLines_no_decl, HP).
  rewrite !filter_flat_map, app_nil_r. reflexivity.
Qed.

Lemma map_eq_Forall {A B} (f g : A -> B) (l : list A) :
  List.map f l = List.map g l -> Forall (fun x => f x = g x) l.
Proof.
  induction l as [|a l IH]; simpl; intros H; [constructor|].
  injection H as Ha Hl. constructor; auto.
Qed.

(** Looking for a name among the declarations, or among all lines. *)
Lemma filter_filter_decl (name : string) (l : list string) :
  declsNamed name (List.filter isDecl l) = declsNamed name l.
Proof.
  unfold declsNamed, isDecl. induction l as [|a l IH]; simpl; [reflexivity|].
  destruct (declName a) eqn:E; simpl; rewrite ?E, IH; reflexivity.
Qed.

Lemma declsNamed_isDecl (name l : string) :
  match declName l with Some n => String.eqb n name | None => false end = true ->
  isDecl l = true.
Proof. unfold isDecl. destruct (declName l); [reflexivity|discriminate]. Qed.

(** The body of a function is found after the lines that declare
    nothing. *)
Lemma bodyOf_skip (name : string) (l1 l2 : list string) :
  Forall (fun l => isDecl l = false) l1 ->
  bodyOf name (l1 ++ l2) = bodyOf name l2.
Proof.
  induction 1 as [|l l1 Hl _ IH]; simpl; [reflexivity|].
  unfold isDecl in Hl. destruct (declName l); [discriminate|exact IH].
Qed.

Lemma importLines_plain (l : list string) :
  Forall (fun l => isDecl l = false) (flat_map (importLines TagPackage) l).
Proof.
  induction l as [|s l IH]; simpl; [constructor|].
  apply Forall_app. split; [|exact IH].
  unfold importLines. destruct (String.eqb s (TagPackage s)); repeat constructor.
Qed.

Lemma bodyOf_templateLines (name : string) (data : TemplateData) :
  bodyOf name (templateLines TagPackage data)
  = bodyOf name
      (flat_map mapBlock (MapServiceNames data)
       ++ sliceHeading
       ++ flat_map (sliceBlock TagPackage) (SliceServiceNames data)
       ++ [ "" ])%list.
Proof.
  unfold templateLines.
  rewrite (bodyOf_skip name header) by (repeat constructor).
  rewrite (bodyOf_skip name _ _ (importLines_plain _)).
  rewrite (bodyOf_skip name mapHeading) by (repeat constructor).
  reflexivity.
Qed.

Lemma funcDecls_templateLines (data : TemplateData) :
  funcDecls (templateLines TagPackage data)
  = (flat_map (fun s => funcDecls (mapBlock s)) (MapServiceNames data)
     ++ flat_map (fun s => funcDecls (sliceBlock TagPackage s))
                 (SliceServiceNames data))%list.
Proof. apply filter_templateLines. auto. Qed.

Lemma declsNamed_templateLines (name : string) (data : TemplateData) :
  declsNamed name (templateLines TagPackage data)
  = (flat_map (fun s => declsNamed name (mapBlock s)) (MapServiceNames data)
     ++ flat_map (fun s => declsNamed name (sliceBlock TagPackage s))
                 (SliceServiceNames data))%list.
Proof. apply filter_templateLines. intros l. apply declsNamed_isDecl. Qed.

End GeneratorOutput.

(** *** The lines of the generated text *)
Section TextLines.
Import Text ServiceTags.

Lemma append_cons (c : ascii) (a b : string) :
  String c a ++ b = String c (a ++ b).
Proof. reflexivity. Qed.

Lemma noBreak_app (a b : string) : noBreak (a ++ b) = noBreak a && noBreak b.
Proof.
  induction a as [|c a IH]; [reflexivity|].
  rewrite append_cons. cbn [noBreak]. rewrite IH, andb_assoc. reflexivity.
Qed.

Lemma splitLines_cons (s : string) : exists l ls, splitLines s = l :: ls.
Proof.
  induction s as [|c s (l & ls & IH)]; cbn [splitLines]; [eauto|].
  destruct (isBreak c); [eauto|]. rewrite IH. eauto.
Qed.

Lemma splitLines_line (l rest x : string) (xs : list string) :
  noBreak l = true -> splitLines rest = x :: xs ->
  splitLines (l ++ rest) = (l ++ x) :: xs.
Proof.
  intros Hl Hrest. induction l as [|c l IH]; [exact Hrest|].
  cbn [noBreak] in Hl. apply andb_true_iff in Hl as [Hc Hl].
  rewrite append_cons. cbn [splitLines].
  apply negb_true_iff in Hc. rewrite Hc, (IH Hl).
  reflexivity.
Qed.

Lemma append_empty (s : string) : s ++ "" = s.
Proof.
  induction s as [|c s IH]; [reflexivity|]. rewrite append_cons, IH. reflexivity.
Qed.

Lemma splitLines_unlines (ls : list string) :
  Forall (fun l => noBreak l = true) ls ->
  splitLines (unlines ls) = "" :: ls.
Proof.
  induction 1 as [|l ls Hl _ IH]; [reflexivity|].
  cbn [unlines fold_right]. fold (unlines ls).
  change (splitLines (nl ++ l ++ unlines ls))
    with ("" :: splitLines (l ++ unlines ls)).
  rewrite (splitLines_line l _ "" ls Hl IH), append_empty. reflexivity.
Qed.

Lemma toTitle_break (c : ascii) : isBreak (toTitle c) = isBreak c.
Proof. destruct c as [[] [] [] [] [] [] [] []]; reflexivity. Qed.

Lemma noBreak_titleFrom (prev : ascii) (s : string) :
  noBreak (titleFrom prev s) = noBreak s.
Proof.
  revert prev. induction s as [|c s IH]; intros prev; [reflexivity|].
  cbn [titleFrom noBreak]. rewrite IH.
  destruct (isSeparator prev); [rewrite toTitle_break|]; reflexivity.
Qed.

Lemma noBreak_Title (s : string) : noBreak (Title s) = noBreak s.
Proof. apply noBreak_titleFrom. Qed.

Lemma noBreak_ServiceTagType (s : string) : noBreak (ServiceTagType s) = true.
Proof. unfold ServiceTagType. repeat (destruct (String.eqb s _)); reflexivity. Qed.

Lemma noBreak_ServiceTagKeyType (s : string) : noBreak (ServiceTagKeyType s) = true.
Proof. unfold ServiceTagKeyType. destruct (String.eqb s _); reflexivity. Qed.

Lemma noBreak_ServiceTagTypeKeyField (s : string) :
  noBreak (ServiceTagTypeKeyField s) = true.
Proof. unfold ServiceTagTypeKeyField. destruct (String.eqb s _); reflexivity. Qed.

Lemma noBreak_ServiceTagTypeValueField (s : string) :
  noBreak (ServiceTagTypeValueField s) = true.
Proof. unfold ServiceTagTypeValueField. destruct (String.eqb s _); reflexivity. Qed.


Variable TagPackage : string -> string.

Ltac line_noBreak :=
  rewrite ?noBreak_app, ?noBreak_Title, ?noBreak_ServiceTagType,
    ?noBreak_ServiceTagKeyType, ?noBreak_ServiceTagTypeKeyField,
    ?noBreak_ServiceTagTypeValueField;
  repeat match goal with H : noBreak _ = true |- _ => rewrite H end;
  reflexivity.

Ltac lines_noBreak :=
  repeat (apply List.Forall_cons; [line_noBreak|]); apply List.Forall_nil.

Lemma mapBlock_noBreak (s : string) :
  noBreak s = true -> Forall (fun l => noBreak l = true) (mapBlock s).
Proof. intros Hs. unfold mapBlock. lines_noBreak. Qed.

Lemma importLines_noBreak (s : string) :
  noBreak s = true -> Forall (fun l => noBreak l = true) (importLines TagPackage s).
Proof.
  intros Hs. unfold importLines. destruct (String.eqb s (TagPackage s)); lines_noBreak.
Qed.

Lemma sliceBlock_noBreak (s : string) :
  noBreak s = true -> noBreak (TagPackage s) = true ->
  Forall (fun l => noBreak l = true) (sliceBlock TagPackage s).
Proof.
  intros Hs Hp. unfold sliceBlock. apply Forall_app. split.
  - unfold tagKeysBlock. destruct (String.eqb (ServiceTagKeyType s) "");
      cbv zeta; lines_noBreak.
  - unfold tagsBlock. cbv zeta. lines_noBreak.
Qed.

Lemma flat_map_Forall {A B} (P : A -> Prop) (Q : B -> Prop) (f : A -> list B)
    (l : list A) :
  (forall a, P a -> Forall Q (f a)) -> Forall P l -> Forall Q (flat_map f l).
Proof.
  intros Hf. induction 1 as [|a l Ha _ IH]; cbn [flat_map]; [constructor|].
  apply Forall_app. split; [apply Hf, Ha|exact IH].
Qed.

(** No line of the template holds a line break when the names and the
    package names hold none. *)
Lemma templateLines_noBreak (data : TemplateData) :
  Forall (fun s => noBreak s = true) (MapServiceNames data) ->
  Forall (fun s => noBreak s = true /\ noBreak (TagPackage s) = true)
         (SliceServiceNames data) ->
  Forall (fun l => noBreak l = true) (templateLines TagPackage data).
Proof.
  intros Hm Hs. unfold templateLines. repeat (apply Forall_app; split).
  - unfold header. lines_noBreak.
  - eapply flat_map_Forall; [|exact Hs]. intros a [Ha _].
    apply importLines_noBreak, Ha.
  - unfold mapHeading. lines_noBreak.
  - eapply flat_map_Forall; [|exact Hm]. apply mapBlock_noBreak.
  - unfold sliceHeading. lines_noBreak.
  - eapply flat_map_Forall; [|exact Hs]. intros a [Ha Hp].
    apply sliceBlock_noBreak; assumption.
  - lines_noBreak.
Qed.

(** The lines of the executed template: an empty first line, then the
    lines of [templateLines]. *)
Lemma splitLines_templateBody (data : TemplateData) :
  Forall (fun s => noBreak s = true) (MapServiceNames data) ->
  Forall (fun s => noBreak s = true /\ noBreak (TagPackage s) = true)
         (SliceServiceNames data) ->
  splitLines (templateBody TagPackage data) = "" :: templateLines TagPackage data.
Proof.
  intros Hm Hs. apply splitLines_unlines, templateLines_noBreak; assumption.
Qed.

End TextLines.

(** *** The declarations of the generated text *)
Section Declarations.
Import Text ServiceTags.
Variable TagPackage : string -> string.

Lemma comment_plain (x : string) : isDecl ("// " ++ x) = false.
Proof. destruct x as [|a [|b x]]; reflexivity. Qed.

Lemma tab_plain (x : string) : isDecl (tab ++ x) = false.
Proof. destruct x as [|a [|b [|c [|d x]]]]; reflexivity. Qed.

Lemma method_declares (x : string) :
  isDecl ("func (tags KeyValueTags) " ++ x) = true.
Proof. reflexivity. Qed.

Lemma func_declares (x : string) : isDecl ("func " ++ x) = true.
Proof.
  unfold isDecl, declName. rewrite !append_cons.
  destruct x as [|c x]; [reflexivity|].
  destruct c as [[] [] [] [] [] [] [] []]; reflexivity.
Qed.

Lemma funcDecls_keep (l : string) (ls : list string) :
  isDecl l = true -> funcDecls (l :: ls) = l :: funcDecls ls.
Proof. intros H. unfold funcDecls. cbn [List.filter]. rewrite H. reflexivity. Qed.

Lemma funcDecls_drop (l : string) (ls : list string) :
  isDecl l = false -> funcDecls (l :: ls) = funcDecls ls.
Proof. intros H. unfold funcDecls. cbn [List.filter]. rewrite H. reflexivity. Qed.

Ltac funcDecls_step :=
  lazymatch goal with
  | |- context [funcDecls (?l :: ?ls)] =>
      lazymatch l with
      | EmptyString => rewrite (funcDecls_drop l ls eq_refl)
      | String _ EmptyString => rewrite (funcDecls_drop l ls eq_refl)
      | append tab _ => rewrite (funcDecls_drop l ls (tab_plain _))
      | append "// " _ => rewrite (funcDecls_drop l ls (comment_plain _))
      | append "func (tags KeyValueTags) " _ =>
          rewrite (funcDecls_keep l ls (method_declares _))
      | append "func " _ => rewrite (funcDecls_keep l ls (func_declares _))
      end
  end.

(** The declarations of the block of a map service. *)
Lemma funcDecls_mapBlock (s : string) :
  funcDecls (mapBlock s)
  = [ "func (tags KeyValueTags) " ++ Title s ++ "Tags() map[string]*string {";
      "func " ++ Title s ++ "KeyValueTags(tags map[string]*string) KeyValueTags {" ].
Proof. unfold mapBlock. repeat funcDecls_step. reflexivity. Qed.

Lemma funcDecls_app (a b : list string) :
  funcDecls (a ++ b) = (funcDecls a ++ funcDecls b)%list.
Proof. apply List.filter_app. Qed.

Lemma funcDecls_tagKeysBlock (s : string) :
  funcDecls (tagKeysBlock TagPackage s)
  = if String.eqb (ServiceTagKeyType s) "" then []
    else [ "func (tags KeyValueTags) " ++ Title s ++ "TagKeys() []*"
           ++ (TagPackage s ++ "." ++ ServiceTagKeyType s) ++ " {" ].
Proof.
  unfold tagKeysBlock. destruct (String.eqb (ServiceTagKeyType s) "");
    [reflexivity|]. cbv zeta. repeat funcDecls_step. reflexivity.
Qed.

Lemma funcDecls_tagsBlock (s : string) :
  funcDecls (tagsBlock TagPackage s)
  = [ "func (tags KeyValueTags) " ++ Title s ++ "Tags() []*"
      ++ (TagPackage s ++ "." ++ ServiceTagType s) ++ " {";
      "func " ++ Title s ++ "KeyValueTags(tags []*"
      ++ (TagPackage s ++ "." ++ ServiceTagType s) ++ ") KeyValueTags {" ].
Proof. unfold tagsBlock. cbv zeta. repeat funcDecls_step. reflexivity. Qed.

(** The declarations of the block of a slice service. *)
Lemma funcDecls_sliceBlock (s : string) :
  funcDecls (sliceBlock TagPackage s)
  = ((if String.eqb (ServiceTagKeyType s) "" then []
      else [ ("func (tags KeyValueTags) " ++ Title s ++ "TagKeys() []*"
              ++ (TagPackage s ++ "." ++ ServiceTagKeyType s) ++ " {")%string ])
     ++ [ ("func (tags KeyValueTags) " ++ Title s ++ "Tags() []*"
           ++ (TagPackage s ++ "." ++ ServiceTagType s) ++ " {")%string;
          ("func " ++ Title s ++ "KeyValueTags(tags []*"
           ++ (TagPackage s ++ "." ++ ServiceTagType s) ++ ") KeyValueTags {")%string ])%list.
Proof.
  unfold sliceBlock.
  rewrite funcDecls_app, funcDecls_tagKeysBlock, funcDecls_tagsBlock.
  reflexivity.
Qed.

(** The declarations of the generated text, in the order of the text. *)
Lemma funcDecls_text (data : TemplateData) :
  Forall (fun s => noBreak s = true) (MapServiceNames data) ->
  Forall (fun s => noBreak s = true /\ noBreak (TagPackage s) = true)
         (SliceServiceNames data) ->
  funcDecls (splitLines (templateBody TagPackage data))
  = (flat_map
       (fun s =>
          [ ("func (tags KeyValueTags) " ++ Title s
             ++ "Tags() map[string]*string {")%string;
            ("func " ++ Title s
             ++ "KeyValueTags(tags map[string]*string) KeyValueTags {")%string ])
       (MapServiceNames data)
     ++ flat_map
       (fun s =>
          (if String.eqb (ServiceTagKeyType s) "" then []
           else [ ("func (tags KeyValueTags) " ++ Title s ++ "TagKeys() []*"
                   ++ (TagPackage s ++ "." ++ ServiceTagKeyType s) ++ " {")%string ])
          ++ [ ("func (tags KeyValueTags) " ++ Title s ++ "Tags() []*"
                ++ (TagPackage s ++ "." ++ ServiceTagType s) ++ " {")%string;
               ("func " ++ Title s ++ "KeyValueTags(tags []*"
                ++ (TagPackage s ++ "." ++ ServiceTagType s)
                ++ ") KeyValueTags {")%string ])
       (SliceServiceNames data))%list.
Proof.
  intros Hm Hs. rewrite (splitLines_templateBody TagPackage data Hm Hs).
  rewrite (funcDecls_drop "" _ eq_refl), funcDecls_templateLines.
  f_equal; apply flat_map_ext; intros s.
  - apply funcDecls_mapBlock.
  - apply funcDecls_sliceBlock.
Qed.

End Declarations.

Section GeneratorClaims.
Import Text ServiceTags.

Lemma declsNamed_plain (name l : string) (ls : list string) :
  isDecl l = false -> declsNamed name (l :: ls) = declsNamed name ls.
Proof.
  unfold isDecl, declsNamed. intros H. cbn [List.filter].
  destruct (declName l); [discriminate|reflexivity].
Qed.

Lemma bodyOf_plain (name l : string) (ls : list string) :
  isDecl l = false -> bodyOf name (l :: ls) = bodyOf name ls.
Proof.
  unfold isDecl. intros H. cbn [bodyOf].
  destruct (declName l); [discriminate|reflexivity].
Qed.

Lemma Forall_sortStrings (P : string -> Prop) (l : list string) :
  Forall P l -> Forall P (sortStrings l).
Proof.
  apply Permutation_Forall. symmetry. apply sortStrings_Permutation.
Qed.

Lemma static_names_noBreak :
  Forall (fun s => noBreak s = true) mapServiceNames
  /\ Forall (fun s => noBreak s = true) sliceServiceNames.
Proof. split; apply (bool_decide_unpack _); vm_compute; exact I. Qed.

(** Claim C6. No service name stands in both static lists: the slice
    list and the map list have no name in common and no name twice, so
    the generated file declares every function name once and no service
    gets conversion functions of both shapes. *)
Theorem service_lists_disjoint (TagPackage : string -> string) :
  (forall s, ~ (s ∈ sliceServiceNames /\ s ∈ mapServiceNames))
  /\ NoDup (sliceServiceNames ++ mapServiceNames)%list
  /\ NoDup (declaredNames
              (templateLines TagPackage
                 (templateDataOf mapServiceNames sliceServiceNames))).
Proof.
  assert (Hnd : NoDup (sliceServiceNames ++ mapServiceNames)%list).
  { apply (bool_decide_unpack _). vm_compute. exact I. }
  split; [|split; [exact Hnd|]].
  - intros s [Hs Hm]. apply NoDup_app in Hnd as (_ & Hdis & _).
    exact (Hdis s Hs Hm).
  - unfold declaredNames. rewrite funcDecls_templateLines.
    apply (bool_decide_unpack _). vm_compute. exact I.
Qed.

(** Claim C4. The text [main] hands to [format.Source] is the template
    executed over the two sorted lists. Among the lines of that text,
    every service of the map list has exactly one declaration of
    [<Title>Tags], a method of the container giving a map of string
    pointers, and exactly one of [<Title>KeyValueTags], taking such a map
    and giving a container; every service of the slice list has exactly
    one declaration of each of the two names as well, over a slice of the
    tag struct type of that service, and their bodies build and read the
    structs through the key and value fields of that service. The struct
    type is TagRef for appmesh, TagListEntry for datasync, ResourceTag
    for fms and swf and Tag for acm; the fields are TagKey and TagValue
    for kms, Key and Value for acm. The package names of the slice
    services hold no line break. *)
Theorem generator_emits_one_pair (TagPackage : string -> string)
    (Hpackages : Forall (fun s => noBreak (TagPackage s) = true) sliceServiceNames) :
  let buffer :=
    templateBody TagPackage (templateDataOf mapServiceNames sliceServiceNames) in
  let out := splitLines buffer in
  (forall formatSource : string -> string + string,
     main TagPackage formatSource
     = match formatSource buffer with
       | inr err => Fatal ("error formatting generated file: " ++ err)
       | inl generatedFileContents => Wrote filename generatedFileContents
       end)
  /\ Forall
    (fun s =>
       declsNamed (Title s ++ "Tags") out
       = [ "func (tags KeyValueTags) " ++ Title s ++ "Tags() map[string]*string {" ]
       /\ declsNamed (Title s ++ "KeyValueTags") out
          = [ "func " ++ Title s
              ++ "KeyValueTags(tags map[string]*string) KeyValueTags {" ]
       /\ bodyOf (Title s ++ "Tags") out
          = [ tab ++ "return aws.StringMap(tags.Map())" ]
       /\ bodyOf (Title s ++ "KeyValueTags") out = [ tab ++ "return New(tags)" ])
    mapServiceNames
  /\ Forall
    (fun s =>
       let tagType := TagPackage s ++ "." ++ ServiceTagType s in
       declsNamed (Title s ++ "Tags") out
       = [ "func (tags KeyValueTags) " ++ Title s ++ "Tags() []*"
           ++ tagType ++ " {" ]
       /\ declsNamed (Title s ++ "KeyValueTags") out
          = [ "func " ++ Title s ++ "KeyValueTags(tags []*"
              ++ tagType ++ ") KeyValueTags {" ]
       /\ bodyOf (Title s ++ "Tags") out
          = [ tab ++ "result := make([]*" ++ tagType ++ ", 0, len(tags))";
              "";
              tab ++ "for k, v := range tags.Map() {";
              tab ++ tab ++ "tag := &" ++ tagType ++ "{";
              tab ++ tab ++ tab ++ ServiceTagTypeKeyField s ++ ":   aws.String(k),";
              tab ++ tab ++ tab ++ ServiceTagTypeValueField s ++ ": aws.String(v),";
              tab ++ tab ++ "}";
              "";
              tab ++ tab ++ "result = append(result, tag)";
              tab ++ "}";
              "";
              tab ++ "return result" ]
       /\ bodyOf (Title s ++ "KeyValueTags") out
          = [ tab ++ "m := make(map[string]*string, len(tags))";
              "";
              tab ++ "for _, tag := range tags {";
              tab ++ tab ++ "m[aws.StringValue(tag." ++ ServiceTagTypeKeyField s
                ++ ")] = tag." ++ ServiceTagTypeValueField s;
              tab ++ "}";
              "";
              tab ++ "return New(m)" ])
    sliceServiceNames
  /\ declsNamed "AcmTags" out
     = [ "func (tags KeyValueTags) AcmTags() []*" ++ (TagPackage "acm" ++ ".Tag") ++ " {" ]
  /\ declsNamed "AppmeshTags" out
     = [ "func (tags KeyValueTags) AppmeshTags() []*"
         ++ (TagPackage "appmesh" ++ ".TagRef") ++ " {" ]
  /\ declsNamed "DatasyncTags" out
     = [ "func (tags KeyValueTags) DatasyncTags() []*"
         ++ (TagPackage "datasync" ++ ".TagListEntry") ++ " {" ]
  /\ declsNamed "FmsKeyValueTags" out
     = [ "func FmsKeyValueTags(tags []*" ++ (TagPackage "fms" ++ ".ResourceTag")
         ++ ") KeyValueTags {" ]
  /\ declsNamed "SwfKeyValueTags" out
     = [ "func SwfKeyValueTags(tags []*" ++ (TagPackage "swf" ++ ".ResourceTag")
         ++ ") KeyValueTags {" ]
  /\ bodyOf "KmsTags" out
     = [ tab ++ "result := make([]*" ++ (TagPackage "kms" ++ ".Tag")
           ++ ", 0, len(tags))";
         "";
         tab ++ "for k, v := range tags.Map() {";
         tab ++ tab ++ "tag := &" ++ (TagPackage "kms" ++ ".Tag") ++ "{";
         tab ++ tab ++ tab ++ "TagKey:   aws.String(k),";
         tab ++ tab ++ tab ++ "TagValue: aws.String(v),";
         tab ++ tab ++ "}";
         "";
         tab ++ tab ++ "result = append(result, tag)";
         tab ++ "}";
         "";
         tab ++ "return result" ]
  /\ bodyOf "KmsKeyValueTags" out
     = [ tab ++ "m := make(map[string]*string, len(tags))";
         "";
         tab ++ "for _, tag := range tags {";
         tab ++ tab ++ "m[aws.StringValue(tag.TagKey)] = tag.TagValue";
         tab ++ "}";
         "";
         tab ++ "return New(m)" ]
  /\ bodyOf "AcmKeyValueTags" out
     = [ tab ++ "m := make(map[string]*string, len(tags))";
         "";
         tab ++ "for _, tag := range tags {";
         tab ++ tab ++ "m[aws.StringValue(tag.Key)] = tag.Value";
         tab ++ "}";
         "";
         tab ++ "return New(m)" ].
Proof.
  intros buffer out.
  pose (blocks :=
    (flat_map (fun s => List.filter isDecl (mapBlock s))
              (sortStrings mapServiceNames)
     ++ flat_map (fun s => List.filter isDecl (sliceBlock TagPackage s))
                 (sortStrings sliceServiceNames))%list).
  pose (rest :=
    (flat_map mapBlock (sortStrings mapServiceNames)
     ++ sliceHeading
     ++ flat_map (sliceBlock TagPackage) (sortStrings sliceServiceNames)
     ++ [ "" ])%list).
  assert (Hlines : out = "" :: templateLines TagPackage
                           (templateDataOf mapServiceNames sliceServiceNames)).
  { subst out buffer. destruct static_names_noBreak as [Hm Hs].
    apply splitLines_templateBody.
    - apply Forall_sortStrings, Hm.
    - apply Forall_sortStrings, Forall_and. split; assumption. }
  assert (Hout : forall name, declsNamed name out = declsNamed name blocks).
  { intros name. rewrite Hlines, (declsNamed_plain name "" _ eq_refl).
    subst blocks. unfold declsNamed.
    rewrite List.filter_app, !filter_flat_map.
    rewrite filter_templateLines by (intros l; apply declsNamed_isDecl).
    unfold templateDataOf; cbn [MapServiceNames SliceServiceNames].
    f_equal; apply flat_map_ext; intros s;
      (rewrite filter_filter_decl; reflexivity). }
  assert (Hbody : forall name, bodyOf name out = bodyOf name rest).
  { intros name. rewrite Hlines, (bodyOf_plain name "" _ eq_refl).
    subst rest. apply bodyOf_templateLines. }
  assert (Hmaps :
    (fun o b => List.map (fun s =>
         (declsNamed (Title s ++ "Tags") o,
          declsNamed (Title s ++ "KeyValueTags") o,
          bodyOf (Title s ++ "Tags") b,
          bodyOf (Title s ++ "KeyValueTags") b)) mapServiceNames
       = List.map (fun s =>
         ([ "func (tags KeyValueTags) " ++ Title s
            ++ "Tags() map[string]*string {" ],
          [ "func " ++ Title s
            ++ "KeyValueTags(tags map[string]*string) KeyValueTags {" ],
          [ tab ++ "return aws.StringMap(tags.Map())" ],
          [ tab ++ "return New(tags)" ]))
         mapServiceNames) blocks rest)
    by (vm_compute; reflexivity).
  assert (Hslices :
    (fun o b => List.map (fun s =>
         (declsNamed (Title s ++ "Tags") o,
          declsNamed (Title s ++ "KeyValueTags") o,
          bodyOf (Title s ++ "Tags") b,
          bodyOf (Title s ++ "KeyValueTags") b)) sliceServiceNames
       = List.map (fun s =>
         let tagType := TagPackage s ++ "." ++ ServiceTagType s in
         ([ "func (tags KeyValueTags) " ++ Title s ++ "Tags() []*"
            ++ tagType ++ " {" ],
          [ "func " ++ Title s ++ "KeyValueTags(tags []*"
            ++ tagType ++ ") KeyValueTags {" ],
          [ tab ++ "result := make([]*" ++ tagType ++ ", 0, len(tags))";
            "";
            tab ++ "for k, v := range tags.Map() {";
            tab ++ tab ++ "tag := &" ++ tagType ++ "{";
            tab ++ tab ++ tab ++ ServiceTagTypeKeyField s ++ ":   aws.String(k),";
            tab ++ tab ++ tab ++ ServiceTagTypeValueField s ++ ": aws.String(v),";
            tab ++ tab ++ "}";
            "";
            tab ++ tab ++ "result = append(result, tag)";
            tab ++ "}";
            "";
            tab ++ "return result" ],
          [ tab ++ "m := make(map[string]*string, len(tags))";
            "";
            tab ++ "for _, tag := range tags {";
            tab ++ tab ++ "m[aws.StringValue(tag." ++ ServiceTagTypeKeyField s
              ++ ")] = tag." ++ ServiceTagTypeValueField s;
            tab ++ "}";
            "";
            tab ++ "return New(m)" ]))
         sliceServiceNames) blocks rest)
    by (vm_compute; reflexivity).
  assert (Hpins :
    (fun o b =>
       (declsNamed "AcmTags" o, declsNamed "AppmeshTags" o,
        declsNamed "DatasyncTags" o, declsNamed "FmsKeyValueTags" o,
        declsNamed "SwfKeyValueTags" o,
        bodyOf "KmsTags" b, bodyOf "KmsKeyValueTags" b, bodyOf "AcmKeyValueTags" b)
       = ([ "func (tags KeyValueTags) AcmTags() []*" ++ (TagPackage "acm" ++ ".Tag") ++ " {" ],
          [ "func (tags KeyValueTags) AppmeshTags() []*"
            ++ (TagPackage "appmesh" ++ ".TagRef") ++ " {" ],
          [ "func (tags KeyValueTags) DatasyncTags() []*"
            ++ (TagPackage "datasync" ++ ".TagListEntry") ++ " {" ],
          [ "func FmsKeyValueTags(tags []*" ++ (TagPackage "fms" ++ ".ResourceTag")
            ++ ") KeyValueTags {" ],
          [ "func SwfKeyValueTags(tags []*" ++ (TagPackage "swf" ++ ".ResourceTag")
            ++ ") KeyValueTags {" ],
          [ tab ++ "result := make([]*" ++ (TagPackage "kms" ++ ".Tag")
           ++ ", 0, len(tags))";
            "";
            tab ++ "for k, v := range tags.Map() {";
            tab ++ tab ++ "tag := &" ++ (TagPackage "kms" ++ ".Tag") ++ "{";
            tab ++ tab ++ tab ++ "TagKey:   aws.String(k),";
            tab ++ tab ++ tab ++ "TagValue: aws.String(v),";
            tab ++ tab ++ "}";
            "";
            tab ++ tab ++ "result = append(result, tag)";
            tab ++ "}";
            "";
            tab ++ "return result" ],
          [ tab ++ "m := make(map[string]*string, len(tags))";
            "";
            tab ++ "for _, tag := range tags {";
            tab ++ tab ++ "m[aws.StringValue(tag.TagKey)] = tag.TagValue";
            tab ++ "}";
            "";
            tab ++ "return New(m)" ],
          [ tab ++ "m := make(map[string]*string, len(tags))";
            "";
            tab ++ "for _, tag := range tags {";
            tab ++ tab ++ "m[aws.StringValue(tag.Key)] = tag.Value";
            tab ++ "}";
            "";
            tab ++ "return New(m)" ])) blocks rest)
    by (vm_compute; reflexivity).
  cbv beta in Hmaps, Hslices, Hpins.
  split; [intros formatSource; reflexivity|].
  split; [|split].
  - apply (Forall_impl _ _ _ (map_eq_Forall _ _ _ Hmaps)).
    intros s Hs. rewrite !Hout, !Hbody. split_and!; congruence.
  - apply (Forall_impl _ _ _ (map_eq_Forall _ _ _ Hslices)).
    intros s Hs. cbv zeta in Hs |- *. rewrite !Hout, !Hbody.
    split_and!; congruence.
  - rewrite !Hout, !Hbody. split_and!; congruence.
Qed.


Lemma generator_emits_one_pair_witness :
  Forall (fun s => Text.noBreak ((fun s => s) s) = true) ServiceTags.sliceServiceNames
  /\ ServiceTags.declsNamed "AppmeshTags"
       (Text.splitLines
          (ServiceTags.templateBody (fun s => s)
             (ServiceTags.templateDataOf ServiceTags.mapServiceNames
                ServiceTags.sliceServiceNames)))
     = [ "func (tags KeyValueTags) AppmeshTags() []*appmesh.TagRef {" ].
Proof.
  assert (H : Forall (fun s => Text.noBreak ((fun s => s) s) = true)
                ServiceTags.sliceServiceNames)
    by (apply (bool_decide_unpack _); vm_compute; exact I).
  split; [exact H|].
  exact (proj1 (proj2 (proj2 (proj2 (proj2
           (generator_emits_one_pair (fun s => s) H)))))).
Defined.

(** Claim C9. The generator sorts both lists before it executes the
    template, and hands the executed template to [format.Source]. Sorting
    keeps the names and puts them in ascending order, so two runs whose
    lists hold the same names, in whatever order they are listed, write
    the same file contents. When no name and no package name holds a line
    break, the function declarations among the lines of the text handed
    to [format.Source] are those of the map services in ascending order
    of service name, followed by those of the slice services in ascending
    order of service name: for each service the key function if it has
    one, then [<Title>Tags], then [<Title>KeyValueTags]. *)
Theorem generate_deterministic
    (TagPackage : string -> string) (formatSource : string -> string + string)
    (maps maps' slices slices' : list string)
    (Hmaps : maps ≡ₚ maps') (Hslices : slices ≡ₚ slices') :
  let buffer := templateBody TagPackage (templateDataOf maps slices) in
  generate TagPackage formatSource maps slices
  = generate TagPackage formatSource maps' slices'
  /\ generate TagPackage formatSource maps slices
     = match formatSource buffer with
       | inr err => Fatal ("error formatting generated file: " ++ err)
       | inl generatedFileContents => Wrote filename generatedFileContents
       end
  /\ sortStrings maps ≡ₚ maps
  /\ sortStrings slices ≡ₚ slices
  /\ MapServiceNames (templateDataOf maps slices) = sortStrings maps
  /\ SliceServiceNames (templateDataOf maps slices) = sortStrings slices
  /\ Sorted string_le (MapServiceNames (templateDataOf maps slices))
  /\ Sorted string_le (SliceServiceNames (templateDataOf maps slices))
  /\ (Forall (fun s => noBreak s = true) maps ->
      Forall (fun s => noBreak s = true /\ noBreak (TagPackage s) = true) slices ->
      funcDecls (splitLines buffer)
      = (flat_map
           (fun s =>
              [ ("func (tags KeyValueTags) " ++ Title s
                 ++ "Tags() map[string]*string {")%string;
                ("func " ++ Title s
                 ++ "KeyValueTags(tags map[string]*string) KeyValueTags {")%string ])
           (sortStrings maps)
         ++ flat_map
           (fun s =>
              (if String.eqb (ServiceTagKeyType s) "" then []
               else [ ("func (tags KeyValueTags) " ++ Title s ++ "TagKeys() []*"
                       ++ (TagPackage s ++ "." ++ ServiceTagKeyType s)
                       ++ " {")%string ])
              ++ [ ("func (tags KeyValueTags) " ++ Title s ++ "Tags() []*"
                    ++ (TagPackage s ++ "." ++ ServiceTagType s) ++ " {")%string;
                   ("func " ++ Title s ++ "KeyValueTags(tags []*"
                    ++ (TagPackage s ++ "." ++ ServiceTagType s)
                    ++ ") KeyValueTags {")%string ])
           (sortStrings slices))%list).
Proof.
  intros buffer. split_and!.
  - unfold generate, templateDataOf.
    rewrite (sortStrings_perm maps maps' Hmaps).
    rewrite (sortStrings_perm slices slices' Hslices). reflexivity.
  - reflexivity.
  - apply sortStrings_Permutation.
  - apply sortStrings_Permutation.
  - reflexivity.
  - reflexivity.
  - apply sortStrings_Sorted.
  - apply sortStrings_Sorted.
  - intros Hm Hs. subst buffer.
    apply (funcDecls_text TagPackage (templateDataOf maps slices)).
    + apply Forall_sortStrings, Hm.
    + apply Forall_sortStrings, Hs.
Qed.

Lemma generate_deterministic_witness :
  ([ "sqs"; "mq" ] ≡ₚ [ "mq"; "sqs" ] /\ [ "kms"; "elb" ] ≡ₚ [ "elb"; "kms" ])
  /\ ServiceTags.generate (fun s => s) inl [ "sqs"; "mq" ] [ "kms"; "elb" ]
     = ServiceTags.generate (fun s => s) inl [ "mq"; "sqs" ] [ "elb"; "kms" ]
  /\ ServiceTags.funcDecls
       (Text.splitLines
          (ServiceTags.templateBody (fun s => s)
             (ServiceTags.templateDataOf [ "sqs"; "mq" ] [ "kms"; "elb" ])))
     = [ "func (tags KeyValueTags) MqTags() map[string]*string {";
         "func MqKeyValueTags(tags map[string]*string) KeyValueTags {";
         "func (tags KeyValueTags) SqsTags() map[string]*string {";
         "func SqsKeyValueTags(tags map[string]*string) KeyValueTags {";
         "func (tags KeyValueTags) ElbTagKeys() []*elb.TagKeyOnly {";
         "func (tags KeyValueTags) ElbTags() []*elb.Tag {";
         "func ElbKeyValueTags(tags []*elb.Tag) KeyValueTags {";
         "func (tags KeyValueTags) KmsTags() []*kms.Tag {";
         "func KmsKeyValueTags(tags []*kms.Tag) KeyValueTags {" ].
Proof.
  assert (H1 : [ "sqs"; "mq" ] ≡ₚ [ "mq"; "sqs" ]) by apply perm_swap.
  assert (H2 : [ "kms"; "elb" ] ≡ₚ [ "elb"; "kms" ]) by apply perm_swap.
  pose proof (generate_deterministic (fun s => s) inl _ _ _ _ H1 H2)
    as (Hsame & _ & _ & _ & _ & _ & _ & _ & Horder).
  split; [split; assumption|]. split; [exact Hsame|].
  rewrite Horder; [reflexivity| |]; repeat constructor.
Defined.

End GeneratorClaims.

Section RoundTrip.
Import Text ServiceTags.
Variable TagPackage : string -> string.
Variable New : gmap string (option string) -> gmap string string.
(** What is asked of [New]: a map whose pointers are all set becomes the
    container of the values pointed to. *)
Hypothesis New_values : forall m : gmap string string, New (Some <$> m) = m.

Lemma key_value_fields_differ (s : string) :
  ServiceTagTypeKeyField s <> ServiceTagTypeValueField s.
Proof.
  unfold ServiceTagTypeKeyField, ServiceTagTypeValueField.
  destruct (String.eqb s "kms"); discriminate.
Qed.

Lemma foldl_snoc_map {A B} (f : A -> B) (l : list A) (acc : list B) :
  foldl (fun result a => (result ++ [ f a ])%list) acc l
  = (acc ++ List.map f l)%list.
Proof.
  revert acc. induction l as [|a l IH]; intros acc; simpl.
  - rewrite app_nil_r. reflexivity.
  - rewrite IH, <- app_assoc. reflexivity.
Qed.

(** Storing the entries one after the other, a later one over an earlier
    one with the same key. *)
Lemma foldl_insert_list_to_map (l : list (string * option string))
    (m0 : gmap string (option string)) :
  foldl (fun m kv => <[fst kv := snd kv]> m) m0 l
  = list_to_map (reverse l) ∪ m0.
Proof.
  revert m0. induction l as [|[k v] l IH]; intros m0; simpl.
  - rewrite (left_id_L ∅ (∪)). reflexivity.
  - rewrite IH, reverse_cons, list_to_map_app. simpl.
    rewrite <- (assoc_L (∪)). f_equal.
    rewrite insert_empty, <- insert_union_singleton_l. reflexivity.
Qed.

Lemma field_key (s k v : string) :
  field (ServiceTagTypeKeyField s)
    {| structType := TagPackage s ++ "." ++ ServiceTagType s;
       structFields :=
         <[ServiceTagTypeValueField s := aws_String v]>
           (<[ServiceTagTypeKeyField s := aws_String k]> ∅) |}
  = Some k.
Proof.
  unfold field; simpl.
  rewrite lookup_insert_ne by (intros E; symmetry in E; exact (key_value_fields_differ s E)).
  rewrite lookup_insert_eq. reflexivity.
Qed.

Lemma field_value (s k v : string) :
  field (ServiceTagTypeValueField s)
    {| structType := TagPackage s ++ "." ++ ServiceTagType s;
       structFields :=
         <[ServiceTagTypeValueField s := aws_String v]>
           (<[ServiceTagTypeKeyField s := aws_String k]> ∅) |}
  = Some v.
Proof. unfold field; simpl. rewrite lookup_insert_eq. reflexivity. Qed.

Lemma readback_fold (s : string) (entries : list (string * string))
    (m0 : gmap string (option string)) :
  foldl
    (fun (m : gmap string (option string)) tag =>
       <[aws_StringValue (field (ServiceTagTypeKeyField s) tag)
         := field (ServiceTagTypeValueField s) tag]> m)
    m0
    (List.map
       (fun kv : string * string =>
          {| structType := TagPackage s ++ "." ++ ServiceTagType s;
             structFields :=
               <[ServiceTagTypeValueField s := aws_String (snd kv)]>
                 (<[ServiceTagTypeKeyField s := aws_String (fst kv)]> ∅) |})
       entries)
  = foldl (fun m kv => <[fst kv := snd kv]> m) m0
      (prod_map id Some <$> entries).
Proof.
  revert m0. induction entries as [|[k v] entries IH]; intros m0; [reflexivity|].
  cbn [List.map foldl fmap list_fmap fst snd].
  rewrite field_key, field_value. apply IH.
Qed.

(** Reading the structs back stores every entry under its key. *)
Lemma SliceKeyValueTags_entries (s : string) (entries : list (string * string)) :
  SliceKeyValueTags New s (SliceTagsIn TagPackage s entries)
  = New (list_to_map (reverse (prod_map id Some <$> entries))).
Proof.
  unfold SliceKeyValueTags, SliceTagsIn. cbv zeta.
  rewrite (foldl_snoc_map
    (fun kv : string * string =>
       {| structType := TagPackage s ++ "." ++ ServiceTagType s;
          structFields :=
            <[ServiceTagTypeValueField s := aws_String (snd kv)]>
              (<[ServiceTagTypeKeyField s := aws_String (fst kv)]> ∅) |})).
  rewrite app_nil_l, readback_fold, foldl_insert_list_to_map.
  rewrite (right_id_L ∅ (∪)). reflexivity.
Qed.

(** Claim C8. For every service (so for every service of the slice
    list) and every container, turning the container into the slice of
    tag structs of the service and the slice back into a container gives
    the container again, in whatever order the map iteration visits the
    entries: the keys of a container are distinct, so no entry is
    overwritten on the way back. *)
Theorem slice_tags_round_trip (s : string) (tags : gmap string string)
    (entries : list (string * string))
    (Horder : entries ≡ₚ map_to_list (Map tags)) :
  SliceKeyValueTags New s (SliceTagsIn TagPackage s entries) = tags
  /\ SliceKeyValueTags New s (SliceTags TagPackage s tags) = tags.
Proof.
  assert (H : forall l : list (string * string),
             l ≡ₚ map_to_list tags ->
             SliceKeyValueTags New s (SliceTagsIn TagPackage s l) = tags).
  { intros l Hl. rewrite SliceKeyValueTags_entries.
    transitivity (New (Some <$> tags)); [|apply New_values]. f_equal.
    rewrite <- (list_to_map_to_list (Some <$> tags)).
    assert (Hp : reverse (prod_map id Some <$> l) ≡ₚ map_to_list (Some <$> tags)).
    { rewrite reverse_Permutation, map_to_list_fmap, Hl. reflexivity. }
    apply list_to_map_proper; [|exact Hp].
    rewrite Hp. apply NoDup_fst_map_to_list. }
  split.
  - apply H. exact Horder.
  - unfold SliceTags. apply H. reflexivity.
Qed.

End RoundTrip.

Lemma slice_tags_round_trip_witness :
  (forall m : gmap string string, omap id (Some <$> m) = m)
  /\ [ ("Name", "web") ] ≡ₚ map_to_list (ServiceTags.Map {[ "Name" := "web" ]})
  /\ ServiceTags.SliceKeyValueTags (omap id) "kms"
       (ServiceTags.SliceTagsIn (fun s => s) "kms" [ ("Name", "web") ])
     = {[ "Name" := "web" ]}.
Proof.
  assert (Hnew : forall m : gmap string string, omap id (Some <$> m) = m).
  { intros m. apply map_eq. intros i.
    rewrite lookup_omap, lookup_fmap. destruct (m !! i); reflexivity. }
  assert (Hord : [ ("Name", "web") ]
                 ≡ₚ map_to_list (ServiceTags.Map {[ "Name" := "web" ]})).
  { unfold ServiceTags.Map. rewrite map_to_list_singleton. reflexivity. }
  split; [exact Hnew|split; [exact Hord|]].
  exact (proj1 (slice_tags_round_trip (fun s => s) (omap id) Hnew "kms"
                  {[ "Name" := "web" ]} [ ("Name", "web") ] Hord)).
Defined.

(* ===================================================================== *)
(** ** Properties of the listener resource *)
(* ===================================================================== *)

(** *** The wait loop, read through the trace

    For a refresh function that makes one exchange with the service per
    poll, and whose answer depends on that exchange only, the polls of a
    wait are the exchanges it adds to the trace. *)
Section WaitLoop.
Import LbListener.
Context {R X : Type} (conf : StateChangeConf R X).
Variable answer : Event -> option R * string * option error.
Variable next : Event -> X.
Variable kind : Event -> bool.
Hypothesis Hstep : forall x w, exists ev,
  Refresh conf x w = (answer ev, next ev, after ev w)
  /\ started ev = clock w /\ clock w <= finished ev /\ kind ev = true.

Lemma last_cons_cons {A} (a : A) (l : list A) :
  last (a :: l) = match last l with Some b => Some b | None => Some a end.
Proof. destruct l as [|b l]; [reflexivity|]. rewrite last_cons. reflexivity. Qed.

(** With a budget that covers the time left, the loop makes the polls
    [evs]: each starts before the deadline; a poll is followed by
    another exactly when its answer is pending and the pause after it
    ends before the deadline; the loop ends on the first answer that is
    not pending, or with a timeout. The budget itself never ends it. *)
Lemma waitLoop_trace (fuel : nat) (deadline : Z) (x : X) (w : World) :
  deadline - clock w < Z.of_nat fuel * Z.pos (pollInterval w) ->
  let '((res, err), x', w') := waitLoop fuel deadline conf x w in
  exists evs : list Event,
    trace w' = (reverse evs ++ trace w)%list
    /\ pollInterval w' = pollInterval w /\ service w' = service w
    /\ Forall (fun ev => kind ev = true
                         /\ clock w <= started ev < deadline
                         /\ started ev <= finished ev) evs
    /\ (forall i ev, evs !! i = Some ev ->
          (is_Some (evs !! S i)
           <-> pollAgain conf (answer ev) = true
               /\ finished ev + Z.pos (pollInterval w) < deadline))
    /\ match last evs with
       | None => deadline <= clock w /\ res = None /\ err = Some TimeoutError
                 /\ x' = x /\ clock w' = clock w
       | Some ev =>
           x' = next ev
           /\ if pollAgain conf (answer ev)
              then res = None /\ err = Some TimeoutError
                   /\ clock w' = finished ev + Z.pos (pollInterval w)
              else (res, err) = stopWith conf (answer ev)
                   /\ clock w' = finished ev
       end.
Proof.
  revert x w. induction fuel as [|fuel IH]; intros x w Hfuel.
  - simpl. exists []. simpl in *. split_and!; auto; try lia;
      try (intros i ev Hi; discriminate Hi).
  - cbn [waitLoop]. destruct (deadline <=? clock w) eqn:Hexp.
    { apply Z.leb_le in Hexp. exists []. simpl. split_and!; auto;
        try (intros i ev Hi; discriminate Hi). }
    apply Z.leb_gt in Hexp.
    destruct (Hstep x w) as (ev & Heq & Hst & Hfin & Hkind).
    rewrite Heq.
    assert (Hone : forall (res : option R) (err : option error),
      pollAgain conf (answer ev) = false ->
      (res, err) = stopWith conf (answer ev) ->
      exists evs : list Event,
        trace (after ev w) = (reverse evs ++ trace w)%list
        /\ pollInterval (after ev w) = pollInterval w
        /\ service (after ev w) = service w
        /\ Forall (fun ev => kind ev = true
                             /\ clock w <= started ev < deadline
                             /\ started ev <= finished ev) evs
        /\ (forall i ev0, evs !! i = Some ev0 ->
              (is_Some (evs !! S i)
               <-> pollAgain conf (answer ev0) = true
                   /\ finished ev0 + Z.pos (pollInterval w) < deadline))
        /\ match last evs with
           | None => deadline <= clock w /\ res = None /\ err = Some TimeoutError
                     /\ next ev = x /\ clock (after ev w) = clock w
           | Some ev0 =>
               next ev = next ev0
               /\ if pollAgain conf (answer ev0)
                  then res = None /\ err = Some TimeoutError
                       /\ clock (after ev w) = finished ev0 + Z.pos (pollInterval w)
                  else (res, err) = stopWith conf (answer ev0)
                       /\ clock (after ev w) = finished ev0
           end).
    { intros res err Hagain Hstop. exists [ev]. simpl.
      split_and!; auto.
      - constructor; [|constructor]. split_and!; auto; lia.
      - intros i ev0 Hi. destruct i; simpl in Hi; [|rewrite lookup_nil in Hi; discriminate].
        injection Hi as <-. simpl. split.
        + intros [v Hv]. discriminate.
        + intros [Ha _]. congruence.
      - rewrite Hagain. split; auto. }
    destruct (answer ev) as [[res st] [e|]] eqn:Hans.
    + apply Hone; reflexivity.
    + destruct (inStates st (Target conf)) eqn:Htarget.
      * apply Hone; simpl; rewrite Htarget; reflexivity.
      * destruct (inStates st (Pending conf)) eqn:Hpending.
        2:{ apply Hone; simpl; rewrite Htarget, ?Hpending; reflexivity. }
        specialize (IH (next ev) (sleep (after ev w))).
        destruct (waitLoop fuel deadline conf (next ev) (sleep (after ev w)))
          as [[[res' err'] x'] w'].
        destruct IH as (evs & Htr & Hpi & Hsv & Hall & Hnext & Hlast).
        { simpl. lia. }
        simpl in Htr, Hpi, Hsv, Hall, Hnext, Hlast.
        assert (Hag : pollAgain conf (answer ev) = true).
        { rewrite Hans. simpl. rewrite Htarget, Hpending. reflexivity. }
        exists (ev :: evs). split_and!; auto.
        -- rewrite reverse_cons, <- app_assoc. exact Htr.
        -- constructor.
           ++ split_and!; auto; lia.
           ++ eapply Forall_impl; [exact Hall|]. simpl. intros ev0 (? & ? & ?).
              split_and!; auto; lia.
        -- intros i ev0 Hi. destruct i; simpl in Hi |- *.
           ++ injection Hi as <-. rewrite Hag. split.
              ** intros [v Hv]. split; [reflexivity|].
                 destruct evs as [|ev1 evs]; [discriminate|].
                 apply Forall_cons in Hall as [(_ & ? & _) _]. lia.
              ** intros [_ Hlt].
                 destruct evs as [|ev1 evs]; [|eexists; reflexivity].
                 simpl in Hlast. lia.
           ++ apply (Hnext i ev0 Hi).
        -- rewrite last_cons_cons. destruct (last evs) as [ev1|] eqn:Hl.
           ++ exact Hlast.
           ++ rewrite Hag. destruct Hlast as (? & ? & ? & ? & ?). split_and!; auto.
Qed.
End WaitLoop.

(** *** [resource.Retry], read through the trace *)
Section RetryTrace.
Import LbListener.
Context {X : Type} (f : RetryFunc X).
Variable verdict : Event -> option RetryError.
Variable xOf : Event -> X.
Variable kind : Event -> bool.
Hypothesis Hf : forall x w, exists ev,
  f x w = (verdict ev, xOf ev, after ev w)
  /\ started ev = clock w /\ clock w <= finished ev /\ kind ev = true.

(** The budget of [WaitForState] covers its timeout. *)
Lemma polls_fuel (timeout : Z) (w : World) :
  clock w + timeout - clock w
  < Z.of_nat (polls timeout w) * Z.pos (pollInterval w).
Proof.
  unfold polls. set (I := Z.pos (pollInterval w)).
  assert (HI : 0 < I) by (subst I; lia).
  pose proof (Z.mod_pos_bound timeout I HI) as Hr.
  pose proof (Z.div_mod timeout I ltac:(lia)) as Hq.
  rewrite !Nat2Z.inj_succ.
  assert (Hm : timeout / I <= Z.of_nat (Z.to_nat (timeout / I))) by lia.
  nia.
Qed.

Lemma retryRefresh_step (st : X * option error) (w : World) :
  exists ev,
    retryRefresh f st w
    = (match verdict ev with
       | None => (Some 42, "success", None)
       | Some re => if Retryable re then (Some 42, "retryableerror", None)
                    else (None, "quit", Some (Err re))
       end, (xOf ev, Err <$> verdict ev), after ev w)
    /\ started ev = clock w /\ clock w <= finished ev /\ kind ev = true.
Proof.
  destruct (Hf (fst st) w) as (ev & Heq & H1 & H2 & H3).
  exists ev. split; [|auto].
  unfold retryRefresh. rewrite Heq.
  destruct (verdict ev) as [re|]; [|reflexivity].
  destruct (Retryable re); reflexivity.
Qed.

Lemma Retry_trace (timeout : Z) (x : X) (w : World) :
  let '(err, x', w') := Retry timeout f x w in
  exists evs : list Event,
    trace w' = (reverse evs ++ trace w)%list
    /\ pollInterval w' = pollInterval w /\ service w' = service w
    /\ Forall (fun ev => kind ev = true
                         /\ clock w <= started ev < clock w + timeout
                         /\ started ev <= finished ev) evs
    /\ (forall i ev, evs !! i = Some ev ->
          (is_Some (evs !! S i)
           <-> retryable (verdict ev) = true
               /\ finished ev + Z.pos (pollInterval w) < clock w + timeout))
    /\ match last evs with
       | None => timeout <= 0 /\ err = Some TimeoutError /\ x' = x
                 /\ clock w' = clock w
       | Some ev =>
           x' = xOf ev /\ err = Err <$> verdict ev
           /\ clock w' = if retryable (verdict ev)
                         then finished ev + Z.pos (pollInterval w)
                         else finished ev
       end.
Proof.
  unfold Retry, WaitForState. cbn [Timeout].
  set (conf := {| Pending := ["retryableerror"]; Target := ["success"];
                  Refresh := retryRefresh f; Timeout := timeout |}).
  pose proof (waitLoop_trace conf _ _ kind retryRefresh_step
                (polls timeout w) (clock w + timeout) (x, None) w
                (polls_fuel timeout w)) as H.
  destruct (waitLoop (polls timeout w) (clock w + timeout) conf (x, None) w)
    as [[[res werr] [x1 rerr]] w1].
  destruct H as (evs & Htr & Hpi & Hsv & Hall & Hnext & Hlast).
  assert (Hagain : forall ev,
    pollAgain conf
      (match verdict ev with
       | None => (Some 42, "success", None)
       | Some re => if Retryable re then (Some 42, "retryableerror", None)
                    else (None, "quit", Some (Err re))
       end) = retryable (verdict ev)).
  { intros ev. destruct (verdict ev) as [re|]; [|reflexivity].
    simpl. destruct (Retryable re); reflexivity. }
  assert (Hgoal : forall err',
    err' = match rerr with None => werr | Some e => Some e end ->
    exists evs0 : list Event,
      trace w1 = (reverse evs0 ++ trace w)%list
      /\ pollInterval w1 = pollInterval w /\ service w1 = service w
      /\ Forall (fun ev => kind ev = true
                           /\ clock w <= started ev < clock w + timeout
                           /\ started ev <= finished ev) evs0
      /\ (forall i ev, evs0 !! i = Some ev ->
            (is_Some (evs0 !! S i)
             <-> retryable (verdict ev) = true
                 /\ finished ev + Z.pos (pollInterval w) < clock w + timeout))
      /\ match last evs0 with
         | None => timeout <= 0 /\ err' = Some TimeoutError /\ x1 = x
                   /\ clock w1 = clock w
         | Some ev =>
             x1 = xOf ev /\ err' = Err <$> verdict ev
             /\ clock w1 = if retryable (verdict ev)
                           then finished ev + Z.pos (pollInterval w)
                           else finished ev
         end).
  { intros err' ->. exists evs. split_and!; auto.
    - intros i ev Hi. rewrite <- Hagain. apply Hnext, Hi.
    - destruct (last evs) as [ev|].
      + destruct Hlast as (Hx & Hl). injection Hx as -> ->.
        rewrite Hagain in Hl. split; [reflexivity|].
        destruct (verdict ev) as [re|]; simpl in *.
        * destruct (Retryable re); simpl in *.
          -- destruct Hl as (_ & _ & ?). auto.
          -- destruct Hl as (_ & ?). auto.
        * destruct Hl as (Hs & ?). injection Hs as _ ->. auto.
      + destruct Hlast as (? & _ & -> & Hx & ?). injection Hx as -> ->.
        split_and!; auto. lia. }
  destruct rerr; apply Hgoal; reflexivity.
Qed.
End RetryTrace.

(** *** One exchange per attempt *)
Section Steps.
Import LbListener.

Lemma since_trace (w w' : World) (evs : list Event) :
  trace w' = (reverse evs ++ trace w)%list -> since w w' = evs.
Proof.
  intros H. unfold since. rewrite H, length_app, length_reverse.
  replace (length evs + length (trace w) - length (trace w))%nat
    with (length (reverse evs)) by (rewrite length_reverse; lia).
  rewrite take_app_length. apply reverse_involutive.
Qed.

Lemma createAttempt_step (params : CreateListenerInput)
    (x : option ListenersOutput) (w : World) :
  exists ev,
    createAttempt params x w = (certificateRetry ev, responseOf ev, after ev w)
    /\ started ev = clock w /\ clock w <= finished ev /\ isCreate ev = true.
Proof.
  unfold createAttempt, CreateListener.
  set (r := createReplies (service w) (calls isCreate w)).
  exists {| started := clock w; finished := clock w + Z.of_N (latency r);
            exchange := XCreate params (result r) |}.
  split; [|simpl; split_and!; auto; lia].
  unfold certificateRetry, responseOf, failure. simpl.
  destruct (result r) as [out|e]; [reflexivity|].
  destruct (isAWSErr e ErrCodeCertificateNotFoundException ""); reflexivity.
Qed.

Lemma modifyAttempt_step (params : ModifyListenerInput) (x : unit) (w : World) :
  exists ev,
    modifyAttempt params x w = (certificateRetry ev, tt, after ev w)
    /\ started ev = clock w /\ clock w <= finished ev /\ isModify ev = true.
Proof.
  unfold modifyAttempt, ModifyListener.
  set (r := modifyReplies (service w) (calls isModify w)).
  exists {| started := clock w; finished := clock w + Z.of_N (latency r);
            exchange := XModify params (result r) |}.
  split; [|simpl; split_and!; auto; lia].
  unfold certificateRetry, failure. simpl.
  destruct (result r) as [out|e]; [reflexivity|].
  destruct (isAWSErr e ErrCodeCertificateNotFoundException ""); reflexivity.
Qed.

Lemma refresh_step (id : string) (w : World) :
  exists ev,
    resourceAwsLbListenerRefreshFunc id w = (refreshAnswer id ev, after ev w)
    /\ started ev = clock w /\ clock w <= finished ev
    /\ describesArn id ev = true
    /\ exchange ev
       = XDescribe id (result (describeReplies (service w) (calls isDescribe w))).
Proof.
  unfold resourceAwsLbListenerRefreshFunc, DescribeListeners.
  set (r := describeReplies (service w) (calls isDescribe w)).
  exists {| started := clock w; finished := clock w + Z.of_N (latency r);
            exchange := XDescribe id (result r) |}.
  split; [|simpl; split_and!; auto; try lia; apply String.eqb_refl].
  unfold refreshAnswer, failure, listenersOf. simpl.
  destruct (result r) as [out|e].
  - destruct out as [ls]. simpl.
    destruct ls as [|l [|l2 ls]]; reflexivity.
  - destruct (isAWSErr e ErrCodeListenerNotFoundException ""); reflexivity.
Qed.

Lemma describesArn_exchange (id : string) (ev : Event) :
  describesArn id ev = true -> exists out, exchange ev = XDescribe id out.
Proof.
  unfold describesArn. destruct (exchange ev) as [| a out | |]; try discriminate.
  intros H. apply String.eqb_eq in H. subst. eauto.
Qed.

End Steps.

(** *** The calls of Create *)
Section CreateShape.
Import LbListener.

Lemma minutes_positive : 0 < 3 * Minute /\ 0 < 5 * Minute.
Proof. unfold Minute, Second, Millisecond. lia. Qed.

Lemma refresh_again (a : string) (p : Event) :
  describesArn a p = true ->
  (let '(_, st, err) := refreshAnswer a p in
   match err with
   | None => negb (inStates st [ "exists" ]) && inStates st [ "" ]
   | Some _ => false
   end) = failedWith ErrCodeListenerNotFoundException p.
Proof.
  intros Hd. apply describesArn_exchange in Hd as [out Hx].
  unfold refreshAnswer, failedWith, failure, listenersOf. rewrite Hx.
  destruct out as [[ls]|e].
  - destruct ls as [|l [|l2 ls]]; reflexivity.
  - destruct (isAWSErr e ErrCodeListenerNotFoundException ""); reflexivity.
Qed.

(** A run of Create is a retry phase of CreateListener calls followed,
    when the last of them answered with a listener, by a wait phase of
    describe calls. *)
Lemma create_shape (d : ResourceData) (w : World) :
  let '(res, d', w') := resourceAwsLbListenerCreate d w in
  exists (creates describes : list Event) (ev : Event),
    since w w' = (creates ++ describes)%list
    /\ Forall (fun e => isCreate e = true
                        /\ clock w <= started e < clock w + 5 * Minute) creates
    /\ Forall (fun p => isDescribe p = true) describes
    /\ (forall i e, creates !! i = Some e ->
          (is_Some (creates !! S i)
           <-> retryable (certificateRetry e) = true
               /\ finished e + Z.pos (pollInterval w) < clock w + 5 * Minute))
    /\ last creates = Some ev
    /\ match failure ev with
       | Some e =>
           res = Failed (Errorf "Error creating LB Listener: " e)
           /\ d' = d /\ describes = []
       | None =>
           match listenersOf ev with
           | Some (l :: _) =>
               match ListenerArn l with
               | Some a =>
                   Id d' = a
                   /\ Forall (fun p => describesArn a p = true
                                       /\ finished ev <= started p
                                          < finished ev + 3 * Minute) describes
                   /\ (forall i p, describes !! i = Some p ->
                         (is_Some (describes !! S i)
                          <-> failedWith ErrCodeListenerNotFoundException p = true
                              /\ finished p + Z.pos (pollInterval w)
                                 < finished ev + 3 * Minute))
                   /\ exists p, last describes = Some p
                      /\ match failure p, listenersOf p with
                         | None, Some [ l1 ] =>
                             res = Ok
                             /\ d' = resourceAwsLbListenerReadData (SetId a d) l1
                         | _, _ =>
                             res = Failed (TextErr ("Error waiting for LB Listener ("
                                             ++ a ++ ") to exist"))
                             /\ d' = SetId a d
                         end
               | None => res = Panicked /\ d' = d /\ describes = []
               end
           | _ =>
               res = Failed (TextErr
                 "Error creating LB Listener: no listeners returned in response")
               /\ d' = d /\ describes = []
           end
       end.
Proof.
  unfold resourceAwsLbListenerCreate, createRetry.
  set (params := {| createLoadBalancerArn := Some (load_balancer_arn d) |}).
  pose proof (Retry_trace (createAttempt params) certificateRetry responseOf
                isCreate (createAttempt_step params) (5 * Minute) None w) as H.
  destruct (Retry (5 * Minute) (createAttempt params) None w) as [[err resp] w1].
  destruct H as (creates & Htr & Hpi & Hsv & Hall & Hnext & Hlast).
  destruct (last creates) as [ev|] eqn:Hlev;
    [|destruct Hlast as (? & _); pose proof minutes_positive; lia].
  assert (Herr : Err <$> certificateRetry ev = failure ev).
  { unfold certificateRetry. destruct (failure ev) as [e|]; [|reflexivity].
    simpl. destruct (isAWSErr e _ _); reflexivity. }
  rewrite Herr in Hlast. destruct Hlast as (-> & -> & Hclock).
  assert (Hcre : Forall (fun e => isCreate e = true
                    /\ clock w <= started e < clock w + 5 * Minute) creates).
  { eapply Forall_impl; [exact Hall|]. simpl. tauto. }
  assert (Hev : isCreate ev = true).
  { apply last_Some_elem_of in Hlev.
    rewrite Forall_forall in Hall. apply Hall in Hlev. tauto. }
  destruct (failure ev) as [e|] eqn:Hfail.
  { exists creates, [], ev. rewrite app_nil_r, Hfail.
    split_and!; auto using since_trace, Forall_nil_2. }
  unfold certificateRetry in Hclock. rewrite Hfail in Hclock.
  simpl in Hclock.
  assert (Hx : exists inp out, exchange ev = XCreate inp (inl out)).
  { unfold isCreate in Hev. unfold failure in Hfail.
    destruct (exchange ev) as [inp [out|e] | | |]; try discriminate; eauto. }
  destruct Hx as (inp & [ls] & Hx).
  unfold responseOf. rewrite Hx. cbn [Listeners].
  destruct ls as [|l ls].
  { exists creates, [], ev. rewrite app_nil_r, Hfail.
    unfold listenersOf. rewrite Hx. cbn [Listeners].
    split_and!; auto using since_trace, Forall_nil_2. }
  destruct (ListenerArn l) as [a|] eqn:Harn.
  2:{ exists creates, [], ev. rewrite app_nil_r, Hfail.
      unfold listenersOf. rewrite Hx. cbn [Listeners]. rewrite Harn.
      split_and!; auto using since_trace, Forall_nil_2. }
  cbn [Id SetId].
  set (conf := {| Pending := [ "" ]; Target := [ "exists" ];
                  Refresh := fun (_ : unit) w =>
                    let '(r, w') := resourceAwsLbListenerRefreshFunc a w in
                    (r, tt, w');
                  Timeout := 3 * Minute |}).
  assert (Hstep : forall (x : unit) w0, exists p,
    Refresh conf x w0 = (refreshAnswer a p, tt, after p w0)
    /\ started p = clock w0 /\ clock w0 <= finished p /\ describesArn a p = true).
  { intros x w0. destruct (refresh_step a w0) as (p & Heq & ? & ? & ? & _).
    exists p. simpl. rewrite Heq. auto. }
  pose proof (waitLoop_trace conf (refreshAnswer a) (fun _ => tt) (describesArn a)
                Hstep (polls (3 * Minute) w1) (clock w1 + 3 * Minute) tt w1
                (polls_fuel (3 * Minute) w1)) as H.
  unfold WaitForState. fold conf. change (Timeout conf) with (3 * Minute).
  destruct (waitLoop (polls (3 * Minute) w1) (clock w1 + 3 * Minute) conf tt w1)
    as [[[lbRaw werr] u] w2].
  destruct H as (describes & Htr2 & Hpi2 & Hsv2 & Hall2 & Hnext2 & Hlast2).
  rewrite Hclock, Hpi in *.
  assert (Hagain : forall p, describesArn a p = true ->
            pollAgain conf (refreshAnswer a p)
            = failedWith ErrCodeListenerNotFoundException p).
  { intros p Hp. rewrite <- (refresh_again a p Hp).
    unfold pollAgain. destruct (refreshAnswer a p) as [[? ?] [?|]]; reflexivity. }
  assert (Hres : exists p, last describes = Some p
     /\ match failure p, listenersOf p with
        | None, Some [ l1 ] =>
            lbRaw = Some l1 /\ werr = None
        | _, _ => exists e, werr = Some e
        end).
  { destruct (last describes) as [p|] eqn:Hlp;
      [|destruct Hlast2 as (? & _); pose proof minutes_positive; lia].
    exists p. split; [reflexivity|].
    destruct Hlast2 as (_ & Hl).
    assert (Hp : describesArn a p = true).
    { apply last_Some_elem_of in Hlp.
      rewrite Forall_forall in Hall2. apply Hall2 in Hlp. tauto. }
    rewrite (Hagain p Hp) in Hl.
    apply describesArn_exchange in Hp as [out Hxp].
    unfold failedWith, failure, listenersOf, refreshAnswer, failure, listenersOf in *.
    rewrite Hxp in *.
    destruct out as [[ls']|e].
    - destruct Hl as (Hs & _).
      destruct ls' as [|l1 [|l2 ls']]; cbn [Listeners] in *; simpl in Hs;
        injection Hs as -> ->; eauto.
    - destruct (isAWSErr e ErrCodeListenerNotFoundException "").
      + destruct Hl as (_ & -> & _). eauto.
      + destruct Hl as (Hs & _). simpl in Hs. injection Hs as -> ->. eauto. }
  destruct Hres as (p & Hlp & Hres).
  assert (Hsince : since w w2 = (creates ++ describes)%list).
  { apply since_trace. rewrite reverse_app, <- app_assoc, Htr2, Htr. reflexivity. }
  assert (Hlo : listenersOf ev = Some (l :: ls)).
  { unfold listenersOf. rewrite Hx. reflexivity. }
  assert (Hd : Forall (fun p0 => describesArn a p0 = true
                 /\ finished ev <= started p0 < finished ev + 3 * Minute) describes).
  { eapply Forall_impl; [exact Hall2|]. simpl. tauto. }
  assert (Hn : forall i p0, describes !! i = Some p0 ->
            (is_Some (describes !! S i)
             <-> failedWith ErrCodeListenerNotFoundException p0 = true
                 /\ finished p0 + Z.pos (pollInterval w) < finished ev + 3 * Minute)).
  { intros i p0 Hi. rewrite <- Hagain.
    - apply Hnext2, Hi.
    - apply list_elem_of_lookup_2 in Hi.
      rewrite Forall_forall in Hall2. apply Hall2 in Hi. tauto. }
  assert (Hdk : Forall (fun p0 => isDescribe p0 = true) describes).
  { eapply Forall_impl; [exact Hall2|]. simpl. intros p0 (Hp0 & _).
    apply describesArn_exchange in Hp0 as [out Hp0].
    unfold isDescribe. rewrite Hp0. reflexivity. }
  destruct (failure p) as [e|] eqn:Hfp;
    [destruct Hres as [e' ->]
    |destruct (listenersOf p) as [[|l1 [|l2 ls1]]|] eqn:Hlop;
       [destruct Hres as [e' ->] | destruct Hres as [-> ->]
       |destruct Hres as [e' ->] | destruct Hres as [e' ->]]];
    (exists creates, describes, ev; rewrite Hfail, Hlo, Harn;
     split_and!; auto; exists p; rewrite ?Hfp, ?Hlop; auto).
Qed.
End CreateShape.

(** *** The claims about the lifecycle operations *)
Section ListenerClaims.
Import LbListener.

Lemma filter_keep {A} (k : A -> bool) (l : list A) :
  Forall (fun a => k a = true) l -> List.filter k l = l.
Proof.
  induction 1 as [|a l Ha _ IH]; simpl; [reflexivity|]. rewrite Ha, IH. reflexivity.
Qed.

Lemma filter_drop {A} (k : A -> bool) (l : list A) :
  Forall (fun a => k a = false) l -> List.filter k l = [].
Proof.
  induction 1 as [|a l Ha _ IH]; simpl; [reflexivity|]. rewrite Ha, IH. reflexivity.
Qed.

Lemma retryable_certificateRetry (ev : Event) :
  retryable (certificateRetry ev)
  = failedWith ErrCodeCertificateNotFoundException ev.
Proof.
  unfold certificateRetry, failedWith. destruct (failure ev) as [e|]; [|reflexivity].
  simpl. destruct (isAWSErr e _ _); reflexivity.
Qed.

(** The calls of Create, sorted by operation. *)
Lemma create_calls (w w' : World) (creates describes : list Event) :
  since w w' = (creates ++ describes)%list ->
  Forall (fun e => isCreate e = true) creates ->
  Forall (fun p => isDescribe p = true) describes ->
  createCalls w w' = creates /\ describeCalls w w' = describes.
Proof.
  intros Hs Hc Hd. unfold createCalls, describeCalls.
  rewrite Hs, !List.filter_app. split.
  - rewrite (filter_keep _ _ Hc), filter_drop, app_nil_r; [reflexivity|].
    eapply Forall_impl; [exact Hd|]. intros p. unfold isDescribe, isCreate.
    destruct (exchange p); congruence.
  - rewrite (filter_keep _ _ Hd), filter_drop; [reflexivity|].
    eapply Forall_impl; [exact Hc|]. intros p. unfold isDescribe, isCreate.
    destruct (exchange p); congruence.
Qed.

(** Claim C1. In every run of Create, each CreateListener call starts
    within five minutes of the start of the operation; a call is followed
    by another one exactly when it failed with the certificate-not-found
    code and the pause after it ends before the five minutes are over;
    and when the last call failed, whatever the error, Create returns the
    creation error, leaves the resource data (the ID with it) as it was
    and has made no describe call. *)
Theorem create_retries_on_certificate_not_found (d : ResourceData) (w : World) :
  let '(res, d', w') := resourceAwsLbListenerCreate d w in
  let creates := createCalls w w' in
  let deadline := clock w + 5 * Minute in
  Forall (fun ev => clock w <= started ev < deadline) creates
  /\ (forall i ev, creates !! i = Some ev ->
        (is_Some (creates !! S i)
         <-> failedWith ErrCodeCertificateNotFoundException ev = true
             /\ finished ev + Z.pos (pollInterval w) < deadline))
  /\ exists ev, last creates = Some ev
     /\ forall e, failure ev = Some e ->
          res = Failed (Errorf "Error creating LB Listener: " e)
          /\ d' = d /\ Id d' = Id d /\ describeCalls w w' = [].
Proof.
  pose proof (create_shape d w) as H.
  destruct (resourceAwsLbListenerCreate d w) as [[res d'] w'].
  destruct H as (creates & describes & ev & Hs & Hc & Hd & Hnext & Hlast & Hres).
  destruct (create_calls w w' creates describes Hs) as [-> ->]; auto.
  { eapply Forall_impl; [exact Hc|]. simpl. tauto. }
  cbv zeta. split_and!.
  - eapply Forall_impl; [exact Hc|]. simpl. tauto.
  - intros i e Hi. rewrite <- retryable_certificateRetry. apply Hnext, Hi.
  - exists ev. split; [exact Hlast|]. intros e He. rewrite He in Hres.
    destruct Hres as (-> & -> & ->). auto.
Qed.

(** A run against the sample service that fails once: two CreateListener
    calls, the second after the pause, then one describe call. *)
Example create_on_flaky_service :
  let out := resourceAwsLbListenerCreate Samples.newData
               (Samples.worldOf Samples.flakyService) in
  fst (fst out) = Ok
  /\ Id (snd (fst out)) = "arn:listener/1"
  /\ List.map summary (since (Samples.worldOf Samples.flakyService) (snd out))
     = [ (0, 1000, Some Samples.certificateNotFound);
         (10000001000, 10000002000, None);
         (10000002000, 10000003000, None) ].
Proof. vm_compute. auto. Qed.






(** Claim C7, as the code has it. Read makes one describe call. When it
    fails with the listener-not-found code, Read clears the resource ID
    and returns nil. Read returns an error, and leaves the resource data
    as it was, for every other failure of the call and also when the call
    succeeds with a number of listeners other than one, none included;
    with exactly one listener it returns nil and stores the listener. *)
Theorem read_outcomes (d : ResourceData) (w : World) :
  let '(res, d', w') := resourceAwsLbListenerRead d w in
  exists ev,
    since w w' = [ ev ]
    /\ exchange ev
       = XDescribe (Id d) (result (describeReplies (service w) (calls isDescribe w)))
    /\ match failure ev with
       | Some e =>
           if isAWSErr e ErrCodeListenerNotFoundException ""
           then res = Ok /\ Id d' = "" /\ d' = SetId "" d
           else res = Failed (Errorf "Error retrieving Listener: "
                                (Errorf "Error retrieving Listener: " e))
                /\ d' = d
       | None =>
           match listenersOf ev with
           | Some [ l ] => res = Ok /\ d' = resourceAwsLbListenerReadData d l
           | _ => (exists e, res = Failed e) /\ d' = d
           end
       end.
Proof.
  unfold resourceAwsLbListenerRead.
  destruct (refresh_step (Id d) w) as (ev & Heq & _ & _ & _ & Hx).
  rewrite Heq. unfold refreshAnswer, failure, listenersOf. rewrite Hx.
  destruct (result (describeReplies (service w) (calls isDescribe w)))
    as [[ls]|e]; cbn [Listeners].
  - destruct ls as [|l [|l2 ls]]; cbn [isAWSErr]; exists ev;
      (split; [apply since_trace; reflexivity|]); (split; [exact Hx|]);
      rewrite Hx; cbn [Listeners]; eauto.
  - destruct (isAWSErr e ErrCodeListenerNotFoundException "") eqn:He;
      cbn [Errorf isAWSErr]; exists ev;
      (split; [apply since_trace; reflexivity|]); (split; [exact Hx|]);
      rewrite Hx, He; auto.
Qed.

(** Claim C7 fails as stated: here the describe call succeeds and returns
    no listener, and Read returns an error and keeps the resource ID. *)
Lemma read_without_listeners_fails :
  (exists ev,
     since (Samples.worldOf Samples.emptyService)
       (snd (resourceAwsLbListenerRead Samples.data1
               (Samples.worldOf Samples.emptyService))) = [ ev ]
     /\ exchange ev = XDescribe "arn:listener/1" (inl {| Listeners := [] |}))
  /\ (exists e,
        fst (fst (resourceAwsLbListenerRead Samples.data1
                    (Samples.worldOf Samples.emptyService))) = Failed e)
  /\ Id (snd (fst (resourceAwsLbListenerRead Samples.data1
                     (Samples.worldOf Samples.emptyService))))
     = "arn:listener/1".
Proof.
  split; [|split].
  - eexists. split; vm_compute; reflexivity.
  - eexists. vm_compute. reflexivity.
  - reflexivity.
Qed.

(** Read makes one describe call, for the listener of the resource. *)
Lemma read_world (d : ResourceData) (w : World) :
  exists ev, snd (resourceAwsLbListenerRead d w) = after ev w
             /\ isDescribe ev = true.
Proof.
  unfold resourceAwsLbListenerRead.
  destruct (refresh_step (Id d) w) as (ev & Heq & _ & _ & Hd & _).
  rewrite Heq. exists ev. split.
  - destruct (refreshAnswer (Id d) ev) as [[lb st] [e|]].
    + destruct (isAWSErr e _ _); reflexivity.
    + destruct lb; reflexivity.
  - apply describesArn_exchange in Hd as [r Hd]. unfold isDescribe.
    rewrite Hd. reflexivity.
Qed.

(** A run of Update is a retry phase of ModifyListener calls followed,
    when the last of them succeeded, by the describe call of Read. *)
Lemma update_shape (d : ResourceData) (w : World) :
  let '(res, d', w') := resourceAwsLbListenerUpdate d w in
  exists (modifies rest : list Event) (ev : Event),
    since w w' = (modifies ++ rest)%list
    /\ Forall (fun e => isModify e = true
                        /\ clock w <= started e < clock w + 5 * Minute) modifies
    /\ Forall (fun p => isDescribe p = true) rest
    /\ (forall i e, modifies !! i = Some e ->
          (is_Some (modifies !! S i)
           <-> retryable (certificateRetry e) = true
               /\ finished e + Z.pos (pollInterval w) < clock w + 5 * Minute))
    /\ last modifies = Some ev
    /\ (forall e, failure ev = Some e ->
          res = Failed (Errorf "Error modifying LB Listener: " e)
          /\ d' = d /\ rest = []).
Proof.
  unfold resourceAwsLbListenerUpdate, modifyRetry.
  set (params := {| modifyListenerArn := Some (Id d) |}).
  pose proof (Retry_trace (modifyAttempt params) certificateRetry (fun _ => tt)
                isModify (modifyAttempt_step params) (5 * Minute) tt w) as H.
  destruct (Retry (5 * Minute) (modifyAttempt params) tt w) as [[err u] w1].
  destruct H as (modifies & Htr & Hpi & Hsv & Hall & Hnext & Hlast).
  destruct (last modifies) as [ev|] eqn:Hlev;
    [|destruct Hlast as (? & _); pose proof minutes_positive; lia].
  assert (Herr : Err <$> certificateRetry ev = failure ev).
  { unfold certificateRetry. destruct (failure ev) as [e|]; [|reflexivity].
    simpl. destruct (isAWSErr e _ _); reflexivity. }
  rewrite Herr in Hlast. destruct Hlast as (_ & -> & Hclock).
  assert (Hmod : Forall (fun e => isModify e = true
                    /\ clock w <= started e < clock w + 5 * Minute) modifies).
  { eapply Forall_impl; [exact Hall|]. simpl. tauto. }
  destruct (failure ev) as [e|] eqn:Hfail.
  - exists modifies, [], ev. rewrite app_nil_r.
    split_and!; auto using since_trace, Forall_nil_2.
    intros e0 He0. rewrite Hfail in He0. injection He0 as <-. auto.
  - destruct (read_world d w1) as (p & Hw & Hp).
    destruct (resourceAwsLbListenerRead d w1) as [[res d'] w'].
    simpl in Hw. subst w'.
    exists modifies, [ p ], ev. split_and!; auto.
    + apply since_trace. simpl. rewrite Htr, reverse_app. reflexivity.
    + intros e He. rewrite Hfail in He. discriminate He.
Qed.

Lemma modify_calls (w w' : World) (modifies rest : list Event) :
  since w w' = (modifies ++ rest)%list ->
  Forall (fun e => isModify e = true) modifies ->
  Forall (fun p => isDescribe p = true) rest ->
  modifyCalls w w' = modifies.
Proof.
  intros Hs Hc Hd. unfold modifyCalls.
  rewrite Hs, !List.filter_app.
  rewrite (filter_keep _ _ Hc), filter_drop, app_nil_r; [reflexivity|].
  eapply Forall_impl; [exact Hd|]. intros p. unfold isDescribe, isModify.
  destruct (exchange p); congruence.
Qed.

(** Claim C3, as the code has it. Create and Update wrap their call of
    the service in the bounded retry: a CreateListener or ModifyListener
    call is followed by another one exactly when it failed with the
    certificate-not-found code and the pause after it ends within five
    minutes of the start, and Update returns the error of its last call
    only then. Delete has no retry: it calls DeleteListener once and
    returns the error of that call, whatever its code. *)
Theorem create_update_retry_delete_once (d : ResourceData) (w : World) :
  (let '(_, _, w') := resourceAwsLbListenerCreate d w in
   forall i ev, createCalls w w' !! i = Some ev ->
     (is_Some (createCalls w w' !! S i)
      <-> failedWith ErrCodeCertificateNotFoundException ev = true
          /\ finished ev + Z.pos (pollInterval w) < clock w + 5 * Minute))
  /\ (let '(res, d', w') := resourceAwsLbListenerUpdate d w in
      Forall (fun ev => clock w <= started ev < clock w + 5 * Minute)
             (modifyCalls w w')
      /\ (forall i ev, modifyCalls w w' !! i = Some ev ->
            (is_Some (modifyCalls w w' !! S i)
             <-> failedWith ErrCodeCertificateNotFoundException ev = true
                 /\ finished ev + Z.pos (pollInterval w) < clock w + 5 * Minute))
      /\ exists ev, last (modifyCalls w w') = Some ev
         /\ forall e, failure ev = Some e ->
              res = Failed (Errorf "Error modifying LB Listener: " e) /\ d' = d)
  /\ (let '(res, d', w') := resourceAwsLbListenerDelete d w in
      exists ev,
        since w w' = [ ev ]
        /\ exchange ev
           = XDelete (Id d) (result (deleteReplies (service w) (calls isDelete w)))
        /\ d' = d
        /\ res = match failure ev with
                 | Some e => Failed (Errorf "Error deleting Listener: " e)
                 | None => Ok
                 end).
Proof.
  split_and!.
  - pose proof (create_shape d w) as H.
    destruct (resourceAwsLbListenerCreate d w) as [[res d'] w'].
    destruct H as (creates & describes & ev & Hs & Hc & Hd & Hnext & _).
    destruct (create_calls w w' creates describes Hs) as [-> _]; auto.
    { eapply Forall_impl; [exact Hc|]. simpl. tauto. }
    intros i e Hi. rewrite <- retryable_certificateRetry. apply Hnext, Hi.
  - pose proof (update_shape d w) as H.
    destruct (resourceAwsLbListenerUpdate d w) as [[res d'] w'].
    destruct H as (modifies & rest & ev & Hs & Hc & Hd & Hnext & Hlast & Hres).
    rewrite (modify_calls w w' modifies rest Hs); auto.
    2:{ eapply Forall_impl; [exact Hc|]. simpl. tauto. }
    split_and!.
    + eapply Forall_impl; [exact Hc|]. simpl. tauto.
    + intros i e Hi. rewrite <- retryable_certificateRetry. apply Hnext, Hi.
    + exists ev. split; [exact Hlast|]. intros e He.
      destruct (Hres e He) as (? & ? & _). auto.
  - unfold resourceAwsLbListenerDelete, DeleteListener.
    set (r := deleteReplies (service w) (calls isDelete w)).
    destruct (result r) as [u|e] eqn:Hr; cbv beta iota zeta;
      (eexists; split_and!;
       [apply since_trace; unfold exchanged; cbn [trace reverse]; reflexivity
       |reflexivity|reflexivity|reflexivity]).
Qed.

(** Claim C3 fails as stated: here the DeleteListener call fails with the
    certificate-not-found code, five minutes are far from over, a second
    call would succeed, and Delete returns the error after this one call. *)
Lemma delete_not_retried :
  exists ev,
    deleteCalls (Samples.worldOf Samples.flakyService)
      (snd (resourceAwsLbListenerDelete Samples.data1
              (Samples.worldOf Samples.flakyService))) = [ ev ]
    /\ failedWith ErrCodeCertificateNotFoundException ev = true
    /\ finished ev + Z.pos (pollInterval (Samples.worldOf Samples.flakyService))
       < clock (Samples.worldOf Samples.flakyService) + 5 * Minute
    /\ result (deleteReplies Samples.flakyService 1) = inl tt
    /\ fst (fst (resourceAwsLbListenerDelete Samples.data1
                   (Samples.worldOf Samples.flakyService)))
       = Failed (Errorf "Error deleting Listener: " Samples.certificateNotFound).
Proof.
  eexists. split_and!; [vm_compute; reflexivity|reflexivity|reflexivity
                       |reflexivity|reflexivity].
Qed.

(** The two retry loops run in step when the service answers the create
    calls and the modify calls after the same times and with the same
    errors. *)
Lemma retry_loops_in_step (pc : CreateListenerInput) (pm : ModifyListenerInput)
    (timeout deadline : Z) (fuel : nat) :
  forall (xc : option ListenersOutput) (xm : unit) (r : option error)
         (wc wm : World),
    clock wc = clock wm ->
    pollInterval wc = pollInterval wm ->
    (forall n,
       errorOutcome (createReplies (service wc) (calls isCreate wc + n))
       = errorOutcome (modifyReplies (service wm) (calls isModify wm + n))) ->
    let rc := waitLoop fuel deadline
                {| Pending := [ "retryableerror" ]; Target := [ "success" ];
                   Refresh := retryRefresh (createAttempt pc);
                   Timeout := timeout |} (xc, r) wc in
    let rm := waitLoop fuel deadline
                {| Pending := [ "retryableerror" ]; Target := [ "success" ];
                   Refresh := retryRefresh (modifyAttempt pm);
                   Timeout := timeout |} (xm, r) wm in
    snd (fst (fst rc)) = snd (fst (fst rm))
    /\ snd (snd (fst rc)) = snd (snd (fst rm))
    /\ clock (snd rc) = clock (snd rm)
    /\ exists evc evm,
         trace (snd rc) = (reverse evc ++ trace wc)%list
         /\ trace (snd rm) = (reverse evm ++ trace wm)%list
         /\ List.map summary evc = List.map summary evm.
Proof.
  induction fuel as [|fuel IH]; intros xc xm r wc wm Hclock Hpi Hsame rc rm;
    subst rc rm.
  - simpl. split_and!; auto. exists [], []. auto.
  - cbn [waitLoop]. rewrite <- Hclock.
    destruct (deadline <=? clock wc).
    { simpl. split_and!; auto. exists [], []. auto. }
    pose proof (Hsame 0%nat) as H0. rewrite !Nat.add_0_r in H0.
    set (qc := createReplies (service wc) (calls isCreate wc)) in *.
    set (qm := modifyReplies (service wm) (calls isModify wm)) in *.
    assert (Hrc : retryRefresh (createAttempt pc) (xc, r) wc
      = match result qc with
        | inl oc => ((Some 42, "success", None), (Some oc, None),
                     exchanged qc (XCreate pc (result qc)) wc)
        | inr e =>
            if isAWSErr e ErrCodeCertificateNotFoundException ""
            then ((Some 42, "retryableerror", None),
                  (Some {| Listeners := [] |}, Some e),
                  exchanged qc (XCreate pc (result qc)) wc)
            else ((None, "quit", Some e),
                  (Some {| Listeners := [] |}, Some e),
                  exchanged qc (XCreate pc (result qc)) wc)
        end).
    { unfold retryRefresh, createAttempt, CreateListener. cbn [fst]. fold qc.
      destruct (result qc) as [oc|e]; [reflexivity|].
      destruct (isAWSErr e _ _); reflexivity. }
    assert (Hrm : retryRefresh (modifyAttempt pm) (xm, r) wm
      = match result qm with
        | inl _ => ((Some 42, "success", None), (tt, None),
                    exchanged qm (XModify pm (result qm)) wm)
        | inr e =>
            if isAWSErr e ErrCodeCertificateNotFoundException ""
            then ((Some 42, "retryableerror", None), (tt, Some e),
                  exchanged qm (XModify pm (result qm)) wm)
            else ((None, "quit", Some e), (tt, Some e),
                  exchanged qm (XModify pm (result qm)) wm)
        end).
    { unfold retryRefresh, modifyAttempt, ModifyListener. cbn [fst]. fold qm.
      destruct (result qm) as [om|e]; [reflexivity|].
      destruct (isAWSErr e _ _); reflexivity. }
    cbn [Refresh]. rewrite Hrc, Hrm. clear Hrc Hrm.
    unfold errorOutcome in H0. injection H0 as Hlat Hres.
    set (evc := {| started := clock wc; finished := clock wc + Z.of_N (latency qc);
                   exchange := XCreate pc (result qc) |}).
    set (evm := {| started := clock wm; finished := clock wm + Z.of_N (latency qm);
                   exchange := XModify pm (result qm) |}).
    assert (Hsum : summary evc = summary evm).
    { unfold summary, failure. subst evc evm. cbn [started finished exchange].
      rewrite Hclock, Hlat. f_equal.
      destruct (result qc), (result qm); congruence. }
    assert (Hone : exists evc0 evm0,
      trace (exchanged qc (XCreate pc (result qc)) wc) = (reverse evc0 ++ trace wc)%list
      /\ trace (exchanged qm (XModify pm (result qm)) wm) = (reverse evm0 ++ trace wm)%list
      /\ List.map summary evc0 = List.map summary evm0).
    { exists [ evc ], [ evm ]. split_and!; try reflexivity.
      simpl. rewrite Hsum. reflexivity. }
    assert (Hck : clock (exchanged qc (XCreate pc (result qc)) wc)
                  = clock (exchanged qm (XModify pm (result qm)) wm)).
    { simpl. rewrite Hclock, Hlat. reflexivity. }
    destruct (result qc) as [oc|ec] eqn:Hrc; destruct (result qm) as [om|em] eqn:Hrm;
      try discriminate.
    + cbn -[exchanged]. split_and!; auto.
    + injection Hres as <-.
      destruct (isAWSErr ec ErrCodeCertificateNotFoundException "") eqn:Hcode.
      2:{ cbn -[exchanged]. split_and!; auto. }
      cbn [inStates existsb String.eqb Ascii.eqb Bool.eqb Pending Target orb negb].
      specialize (IH (Some {| Listeners := [] |}) tt (Some ec)
                     (sleep (exchanged qc (XCreate pc (inr ec)) wc))
                     (sleep (exchanged qm (XModify pm (inr ec)) wm))).
      destruct IH as (H1 & H2 & H3 & evc' & evm' & Htc & Htm & Hmap).
      { simpl. rewrite Hclock, Hlat, Hpi. reflexivity. }
      { simpl. exact Hpi. }
      { intros n. unfold calls. simpl. fold (calls isCreate wc).
        fold (calls isModify wm). rewrite <- !Nat.add_succ_r. apply Hsame. }
      split_and!; auto.
      exists (evc :: evc'), (evm :: evm'). split_and!.
      * rewrite Htc, reverse_cons, <- app_assoc. reflexivity.
      * rewrite Htm, reverse_cons, <- app_assoc. reflexivity.
      * simpl. rewrite Hsum, Hmap. reflexivity.
Qed.

(** Claim C5. The retry of Create around CreateListener and the retry of
    Update around ModifyListener are one policy: both closures classify
    the outcome of their call alike (retryable exactly on the
    certificate-not-found code), and when the service answers the two
    kinds of calls after the same times and with the same errors, the two
    wrappers, both run with the five-minute timeout, give the same error,
    end at the same time and make their calls at the same times with the
    same outcomes. *)
Theorem retry_wrappers_agree
    (pc : CreateListenerInput) (pm : ModifyListenerInput) (w : World)
    (Hsame : forall n,
       errorOutcome (createReplies (service w) (calls isCreate w + n))
       = errorOutcome (modifyReplies (service w) (calls isModify w + n))) :
  fst (fst (createRetry pc w)) = fst (fst (modifyRetry pm w))
  /\ clock (snd (createRetry pc w)) = clock (snd (modifyRetry pm w))
  /\ List.map summary (since w (snd (createRetry pc w)))
     = List.map summary (since w (snd (modifyRetry pm w)))
  /\ fst (fst (createAttempt pc None w)) = fst (fst (modifyAttempt pm tt w))
  /\ createRetry pc w = Retry (5 * Minute) (createAttempt pc) None w
  /\ modifyRetry pm w = Retry (5 * Minute) (modifyAttempt pm) tt w.
Proof.
  split_and!; try reflexivity.
  1-3: unfold createRetry, modifyRetry, Retry, WaitForState; cbn [Timeout];
    pose proof (retry_loops_in_step pc pm (5 * Minute) (clock w + 5 * Minute)
                  (polls (5 * Minute) w) None tt None w w eq_refl eq_refl Hsame)
      as (H1 & H2 & H3 & evc & evm & Htc & Htm & Hmap);
    cbv zeta in H1, H2, H3, Htc, Htm;
    destruct (waitLoop (polls (5 * Minute) w) (clock w + 5 * Minute)
                {| Pending := [ "retryableerror" ]; Target := [ "success" ];
                   Refresh := retryRefresh (createAttempt pc);
                   Timeout := 5 * Minute |} (None, None) w)
      as [[[resc werrc] [xc rc]] wc];
    destruct (waitLoop (polls (5 * Minute) w) (clock w + 5 * Minute)
                {| Pending := [ "retryableerror" ]; Target := [ "success" ];
                   Refresh := retryRefresh (modifyAttempt pm);
                   Timeout := 5 * Minute |} (tt, None) w)
      as [[[resm werrm] [xm rm]] wm];
    cbn [fst snd] in *; subst rm werrm.
  - destruct rc; reflexivity.
  - destruct rc; exact H3.
  - assert (Hc : since w wc = evc) by (apply since_trace, Htc).
    assert (Hm : since w wm = evm) by (apply since_trace, Htm).
    destruct rc; cbn [snd]; rewrite Hc, Hm; exact Hmap.
  - pose proof (Hsame 0%nat) as H0. rewrite !Nat.add_0_r in H0.
    unfold createAttempt, modifyAttempt, CreateListener, ModifyListener.
    unfold errorOutcome in H0. injection H0 as _ Hres.
    destruct (result (createReplies (service w) (calls isCreate w)));
      destruct (result (modifyReplies (service w) (calls isModify w)));
      try discriminate; [reflexivity|].
    injection Hres as <-. destruct (isAWSErr _ _ _); reflexivity.
Qed.

Lemma retry_wrappers_agree_witness :
  (forall n,
     errorOutcome (createReplies Samples.flakyService (0 + n))
     = errorOutcome (modifyReplies Samples.flakyService (0 + n)))
  /\ fst (fst (createRetry
                 {| createLoadBalancerArn := None; createPort := None;
                    createProtocol := None; createSslPolicy := None;
                    createCertificates := []; createDefaultActions := [] |}
                 (Samples.worldOf Samples.flakyService)))
     = fst (fst (modifyRetry
                   {| modifyListenerArn := None; modifyPort := None;
                      modifyProtocol := None; modifySslPolicy := None;
                      modifyCertificates := []; modifyDefaultActions := [] |}
                   (Samples.worldOf Samples.flakyService))).
Proof.
  assert (H : forall n,
     errorOutcome (createReplies Samples.flakyService (0 + n))
     = errorOutcome (modifyReplies Samples.flakyService (0 + n))).
  { intros [|n]; reflexivity. }
  split; [exact H|].
  exact (proj1 (retry_wrappers_agree _ _ (Samples.worldOf Samples.flakyService) H)).
Defined.

End ListenerClaims.

(* ===================================================================== *)
(** ** Further properties of the generator *)
(* ===================================================================== *)

(** *** Counting the declarations *)
Section GeneratorExtras.
Import Text ServiceTags.
Variable TagPackage : string -> string.

Lemma length_flat_map_const {A B} (f : A -> list B) (n : nat) (l : list A) :
  (forall a, length (f a) = n) -> length (flat_map f l) = (n * length l)%nat.
Proof.
  intros Hf. induction l as [|a l IH]; simpl; [lia|].
  rewrite length_app, Hf, IH. lia.
Qed.

(** Whatever the two lists are, as long as no name and no package name
    holds a line break, the text of the executed template declares two
    functions for every listed service, and one more, the key function,
    for every entry elb of the slice list. *)
Theorem declaration_count (data : TemplateData)
    (Hmaps : Forall (fun s => noBreak s = true) (MapServiceNames data))
    (Hslices : Forall (fun s => noBreak s = true /\ noBreak (TagPackage s) = true)
                 (SliceServiceNames data)) :
  length (funcDecls (splitLines (templateBody TagPackage data)))
  = (2 * length (MapServiceNames data)
     + 2 * length (SliceServiceNames data)
     + length (List.filter (fun s => String.eqb s "elb") (SliceServiceNames data)))%nat.
Proof.
  rewrite (funcDecls_text TagPackage data Hmaps Hslices), length_app.
  rewrite (length_flat_map_const _ 2) by (intros a; reflexivity).
  rewrite <- Nat.add_assoc. f_equal. clear Hmaps Hslices.
  induction (SliceServiceNames data) as [|s l IH]; [reflexivity|].
  cbn [flat_map List.filter]. rewrite !length_app, IH.
  unfold ServiceTagKeyType. destruct (String.eqb s "elb").
  - change (String.eqb "TagKeyOnly" "") with false. cbn [length]. lia.
  - change (String.eqb "" "") with true. cbn [length]. lia.
Qed.

(** *** Function names *)

Lemma plain_not_separator (c : ascii) :
  isLower c || isDigit c = true -> isSeparator c = false.
Proof.
  unfold isSeparator. intros H.
  destruct (isLower c); [reflexivity|]. simpl in H. rewrite H.
  destruct (isUpper c); reflexivity.
Qed.

(** Inside a word nothing changes. *)
Lemma titleFrom_plain (prev : ascii) (s : string) :
  isSeparator prev = false -> plainName s = true -> titleFrom prev s = s.
Proof.
  revert prev. induction s as [|c s IH]; intros prev Hprev Hs; [reflexivity|].
  simpl in Hs. apply andb_true_iff in Hs as [Hc Hs].
  simpl. rewrite Hprev. f_equal. apply IH; [|exact Hs].
  apply plain_not_separator, Hc.
Qed.

Lemma Title_plain (c : ascii) (s : string) :
  plainName (String c s) = true -> Title (String c s) = String (toTitle c) s.
Proof.
  intros Hs. simpl in Hs. apply andb_true_iff in Hs as [Hc Hs].
  unfold Title. cbn [titleFrom]. change (isSeparator " ") with true. cbv iota.
  f_equal. apply titleFrom_plain; [apply plain_not_separator, Hc|exact Hs].
Qed.

Lemma toTitle_nat (c : ascii) :
  nat_of_ascii (toTitle c)
  = if isLower c then (nat_of_ascii c - 32)%nat else nat_of_ascii c.
Proof.
  unfold toTitle. destruct (isLower c) eqn:Hl; [|reflexivity].
  apply nat_ascii_embedding. pose proof (nat_ascii_bounded c). lia.
Qed.

Lemma toTitle_injective (c1 c2 : ascii) :
  isLower c1 || isDigit c1 = true -> isLower c2 || isDigit c2 = true ->
  toTitle c1 = toTitle c2 -> c1 = c2.
Proof.
  intros H1 H2 Heq.
  apply (f_equal nat_of_ascii) in Heq. rewrite !toTitle_nat in Heq.
  rewrite <- (ascii_nat_embedding c1), <- (ascii_nat_embedding c2). f_equal.
  unfold isLower, isDigit in *.
  destruct ((97 <=? nat_of_ascii c1)%nat && (nat_of_ascii c1 <=? 122)%nat) eqn:L1;
    destruct ((97 <=? nat_of_ascii c2)%nat && (nat_of_ascii c2 <=? 122)%nat) eqn:L2;
    simpl in H1, H2;
    repeat match goal with
           | H : _ && _ = true |- _ => apply andb_true_iff in H as [? ?]
           | H : (_ <=? _)%nat = true |- _ => apply Nat.leb_le in H
           end; lia.
Qed.

(** For names of lowercase letters and digits, as the service names are:
    [Title] changes the first character only, to its upper case, and two
    different names never give the same title, so never the same function
    name. *)
Theorem title_of_plain_names (s1 s2 : string)
    (H1 : plainName s1 = true) (H2 : plainName s2 = true) :
  (forall c s, s1 = String c s -> Title s1 = String (toTitle c) s)
  /\ (Title s1 = Title s2 -> s1 = s2)
  /\ (s1 <> s2 -> Title s1 ++ "Tags" <> Title s2 ++ "Tags"
                  /\ Title s1 ++ "KeyValueTags" <> Title s2 ++ "KeyValueTags").
Proof.
  assert (Hinj : Title s1 = Title s2 -> s1 = s2).
  { destruct s1 as [|c1 r1], s2 as [|c2 r2]; try reflexivity.
    - rewrite (Title_plain c2 r2 H2). discriminate.
    - rewrite (Title_plain c1 r1 H1). discriminate.
    - rewrite (Title_plain c1 r1 H1), (Title_plain c2 r2 H2).
      intros Heq. injection Heq as Hc Hr. subst r2. f_equal.
      simpl in H1, H2. apply andb_true_iff in H1 as [H1 _].
      apply andb_true_iff in H2 as [H2 _].
      apply toTitle_injective; assumption. }
  assert (Hcancel : forall a b t : string, a ++ t = b ++ t -> a = b).
  { intros a b t Heq.
    assert (Happ : forall u v : string,
              String.length (u ++ v) = (String.length u + String.length v)%nat).
    { induction u as [|x u IHu]; intros v; simpl; [reflexivity|].
      rewrite IHu. reflexivity. }
    assert (Hlen : String.length a = String.length b).
    { apply (f_equal String.length) in Heq. rewrite !Happ in Heq. lia. }
    clear Happ.
    revert b Heq Hlen. induction a as [|x a IH]; intros [|y b] Heq Hlen;
      try discriminate; [reflexivity|].
    simpl in Heq. injection Heq as -> Heq. f_equal. apply IH; [exact Heq|].
    simpl in Hlen. lia. }
  split_and!.
  - intros c s ->. apply Title_plain, H1.
  - exact Hinj.
  - intros Hne. split; intros Heq; apply Hne, Hinj, (Hcancel _ _ _ Heq).
Qed.

End GeneratorExtras.

Section TagStructs.
Import Text ServiceTags.
Variable TagPackage : string -> string.

(** The key function gives one struct per entry, in the order of the
    visit, of the tag key type of the service, holding the key and no
    value; over a container these are the keys of the container. *)
Theorem tag_keys_hold_the_keys (s : string) (entries : list (string * string))
    (tags : gmap string string) :
  List.map (field (ServiceTagTypeKeyField s)) (SliceTagKeysIn TagPackage s entries)
  = List.map (fun kv => Some (fst kv)) entries
  /\ Forall (fun t => structType t = TagPackage s ++ "." ++ ServiceTagKeyType s
                      /\ field (ServiceTagTypeValueField s) t = None)
            (SliceTagKeysIn TagPackage s entries)
  /\ length (SliceTagKeys TagPackage s tags) = size tags
  /\ (forall k, Some k ∈ List.map (field (ServiceTagTypeKeyField s))
                          (SliceTagKeys TagPackage s tags)
                <-> is_Some (tags !! k)).
Proof.
  assert (Hmap : forall l,
    SliceTagKeysIn TagPackage s l
    = List.map (fun kv : string * string =>
        {| structType := TagPackage s ++ "." ++ ServiceTagKeyType s;
           structFields := <[ServiceTagTypeKeyField s := aws_String (fst kv)]> ∅ |}) l).
  { intros l. unfold SliceTagKeysIn. cbv zeta.
    rewrite (foldl_snoc_map
      (fun kv : string * string =>
        {| structType := TagPackage s ++ "." ++ ServiceTagKeyType s;
           structFields := <[ServiceTagTypeKeyField s := aws_String (fst kv)]> ∅ |})).
    reflexivity. }
  assert (Hkeys : forall l,
    List.map (field (ServiceTagTypeKeyField s)) (SliceTagKeysIn TagPackage s l)
    = List.map (fun kv => Some (fst kv)) l).
  { intros l. rewrite Hmap, List.map_map. apply List.map_ext. intros kv.
    unfold field. simpl. rewrite lookup_insert_eq. reflexivity. }
  split_and!.
  - apply Hkeys.
  - rewrite Hmap. apply Forall_forall. intros t Ht.
    apply list_elem_of_In, List.in_map_iff in Ht as (kv & <- & _).
    split; [reflexivity|]. unfold field. simpl.
    rewrite lookup_insert_ne by apply key_value_fields_differ.
    rewrite lookup_empty. reflexivity.
  - unfold SliceTagKeys, Map. rewrite Hmap, List.length_map.
    apply length_map_to_list.
  - intros k. unfold SliceTagKeys, Map. rewrite Hkeys. split.
    + intros Hin. apply list_elem_of_In, List.in_map_iff in Hin as ([k' v] & Hk & Hin).
      simpl in Hk. injection Hk as ->.
      apply list_elem_of_In, elem_of_map_to_list in Hin. eauto.
    + intros [v Hv]. apply list_elem_of_In, List.in_map_iff.
      exists (k, v). split; [reflexivity|].
      apply list_elem_of_In, elem_of_map_to_list, Hv.
Qed.

(** The structs built for a list of entries hold these entries, in order,
    in their key and value fields, and have the tag type of the service;
    a container gives as many structs as it has keys. *)
Theorem slice_tags_hold_the_entries (s : string) (entries : list (string * string))
    (tags : gmap string string) :
  List.map (fun t => (aws_StringValue (field (ServiceTagTypeKeyField s) t),
                      aws_StringValue (field (ServiceTagTypeValueField s) t)))
           (SliceTagsIn TagPackage s entries)
  = entries
  /\ Forall (fun t => structType t = TagPackage s ++ "." ++ ServiceTagType s)
            (SliceTagsIn TagPackage s entries)
  /\ length (SliceTags TagPackage s tags) = size tags.
Proof.
  assert (Hmap : forall l,
    SliceTagsIn TagPackage s l
    = List.map (fun kv : string * string =>
        {| structType := TagPackage s ++ "." ++ ServiceTagType s;
           structFields :=
             <[ServiceTagTypeValueField s := aws_String (snd kv)]>
               (<[ServiceTagTypeKeyField s := aws_String (fst kv)]> ∅) |}) l).
  { intros l. unfold SliceTagsIn. cbv zeta.
    rewrite (foldl_snoc_map
      (fun kv : string * string =>
        {| structType := TagPackage s ++ "." ++ ServiceTagType s;
           structFields :=
             <[ServiceTagTypeValueField s := aws_String (snd kv)]>
               (<[ServiceTagTypeKeyField s := aws_String (fst kv)]> ∅) |})).
    reflexivity. }
  split_and!.
  - rewrite Hmap, List.map_map. rewrite <- (List.map_id entries) at 2.
    apply List.map_ext. intros [k v]. cbn [fst snd].
    rewrite (field_key TagPackage), (field_value TagPackage). reflexivity.
  - rewrite Hmap. apply Forall_forall. intros t Ht.
    apply list_elem_of_In, List.in_map_iff in Ht as (kv & <- & _). reflexivity.
  - unfold SliceTags, Map. rewrite Hmap, List.length_map.
    apply length_map_to_list.
Qed.

Variable New : gmap string (option string) -> gmap string string.
Hypothesis New_values : forall m : gmap string string, New (Some <$> m) = m.

(** Reading a slice of structs back keeps, for a key that occurs more
    than once, the value of its last struct. *)
Theorem later_tag_wins (s : string) (kvs : list (string * string)) (k v : string) :
  SliceKeyValueTags New s (SliceTagsIn TagPackage s kvs) = list_to_map (reverse kvs)
  /\ SliceKeyValueTags New s (SliceTagsIn TagPackage s (kvs ++ [ (k, v) ])) !! k
     = Some v.
Proof.
  assert (H : forall l,
    SliceKeyValueTags New s (SliceTagsIn TagPackage s l) = list_to_map (reverse l)).
  { intros l. rewrite SliceKeyValueTags_entries.
    rewrite <- fmap_reverse, list_to_map_fmap. apply New_values. }
  split; [apply H|].
  rewrite H, reverse_app. simpl. apply lookup_insert_eq.
Qed.
End TagStructs.

Lemma declaration_count_witness :
  (Forall (fun s => Text.noBreak s = true) [ "mq"; "sqs" ]
   /\ Forall (fun s => Text.noBreak s = true /\ Text.noBreak ((fun s => s) s) = true)
        [ "elb"; "kms" ])
  /\ length (ServiceTags.funcDecls
               (Text.splitLines
                  (ServiceTags.templateBody (fun s => s)
                     {| ServiceTags.MapServiceNames := [ "mq"; "sqs" ];
                        ServiceTags.SliceServiceNames := [ "elb"; "kms" ] |})))
     = 9%nat.
Proof.
  assert (H1 : Forall (fun s => Text.noBreak s = true) [ "mq"; "sqs" ])
    by (repeat constructor).
  assert (H2 : Forall (fun s => Text.noBreak s = true
                                /\ Text.noBreak ((fun s => s) s) = true)
                 [ "elb"; "kms" ])
    by (repeat constructor).
  split; [split; assumption|].
  exact (declaration_count (fun s => s)
           {| ServiceTags.MapServiceNames := [ "mq"; "sqs" ];
              ServiceTags.SliceServiceNames := [ "elb"; "kms" ] |} H1 H2).
Defined.


Lemma later_tag_wins_witness :
  (forall m : gmap string string, omap id (Some <$> m) = m)
  /\ ServiceTags.SliceKeyValueTags (omap id) "ec2"
       (ServiceTags.SliceTagsIn (fun s => s) "ec2"
          ([ ("Name", "old") ] ++ [ ("Name", "new") ])) !! "Name"
     = Some "new".
Proof.
  assert (Hnew : forall m : gmap string string, omap id (Some <$> m) = m).
  { intros m. apply map_eq. intros i.
    rewrite lookup_omap, lookup_fmap. destruct (m !! i); reflexivity. }
  split; [exact Hnew|].
  exact (proj2 (later_tag_wins (fun s => s) (omap id) Hnew "ec2"
                  [ ("Name", "old") ] "Name" "new")).
Defined.

Lemma title_of_plain_names_witness :
  (Text.plainName "elb" = true /\ Text.plainName "elbv2" = true)
  /\ ("elb" <> "elbv2" ->
      Text.Title "elb" ++ "Tags" <> Text.Title "elbv2" ++ "Tags"
      /\ Text.Title "elb" ++ "KeyValueTags" <> Text.Title "elbv2" ++ "KeyValueTags").
Proof.
  split; [split; reflexivity|].
  exact (proj2 (proj2 (title_of_plain_names "elb" "elbv2" eq_refl eq_refl))).
Defined.

(* ===================================================================== *)
(** ** Further properties of the listener resource *)
(* ===================================================================== *)

(** *** The exchanges an operation makes *)
Section WaitEvents.
Import LbListener.
Context {R X : Type} (conf : StateChangeConf R X) (P : Event -> Prop).
Hypothesis Hstep : forall x w, exists ev r x1,
  Refresh conf x w = (r, x1, after ev w) /\ P ev.

(** Every exchange of a wait is one of its refresh function. *)
Lemma waitLoop_events (fuel : nat) (deadline : Z) (x : X) (w : World) :
  exists evs,
    trace (snd (waitLoop fuel deadline conf x w)) = (reverse evs ++ trace w)%list
    /\ Forall P evs.
Proof.
  revert x w. induction fuel as [|fuel IH]; intros x w.
  - exists []. split; [reflexivity|constructor].
  - cbn [waitLoop]. destruct (deadline <=? clock w).
    { exists []. split; [reflexivity|constructor]. }
    destruct (Hstep x w) as (ev & [[res st] err] & x1 & Heq & Hev). rewrite Heq.
    assert (Hone : exists evs,
      trace (after ev w) = (reverse evs ++ trace w)%list /\ Forall P evs).
    { exists [ ev ]. split; [reflexivity|]. constructor; [exact Hev|constructor]. }
    destruct err as [e|]; [exact Hone|].
    destruct (inStates st (Target conf)); [exact Hone|].
    destruct (inStates st (Pending conf)); [|exact Hone].
    destruct (IH x1 (sleep (after ev w))) as (evs & Htr & Hall).
    exists (ev :: evs). split; [|constructor; assumption].
    rewrite Htr, reverse_cons, <- app_assoc. reflexivity.
Qed.
End WaitEvents.

Section OperationEvents.
Import LbListener.

Lemma createRetry_events (params : CreateListenerInput) (w : World) :
  exists creates,
    trace (snd (createRetry params w)) = (reverse creates ++ trace w)%list
    /\ Forall (fun ev => exists out, exchange ev = XCreate params out) creates.
Proof.
  unfold createRetry, Retry, WaitForState. cbn [Timeout].
  set (conf := {| Pending := [ "retryableerror" ]; Target := [ "success" ];
                  Refresh := retryRefresh (createAttempt params);
                  Timeout := 5 * Minute |}).
  destruct (waitLoop_events conf
              (fun ev => exists out, exchange ev = XCreate params out))
    with (fuel := polls (5 * Minute) w) (deadline := clock w + 5 * Minute)
         (x := (@None ListenersOutput, @None error)) (w := w)
    as (evs & Htr & Hall).
  { intros [x r] w0. cbn [Refresh conf]. unfold retryRefresh, createAttempt,
      CreateListener. cbn [fst].
    set (q := createReplies (service w0) (calls isCreate w0)).
    exists {| started := clock w0; finished := clock w0 + Z.of_N (latency q);
              exchange := XCreate params (result q) |}.
    destruct (result q) as [out|e] eqn:Hq.
    - eexists _, _. split; [reflexivity|]. cbn [exchange]. eauto.
    - destruct (isAWSErr e ErrCodeCertificateNotFoundException "");
        (eexists _, _; split; [reflexivity|]; cbn [exchange]; eauto). }
  exists evs. split; [|exact Hall].
  destruct (waitLoop (polls (5 * Minute) w) (clock w + 5 * Minute) conf (None, None) w)
    as [[[res werr] [x1 rerr]] w1].
  destruct rerr; exact Htr.
Qed.

Lemma modifyRetry_events (params : ModifyListenerInput) (w : World) :
  exists modifies,
    trace (snd (modifyRetry params w)) = (reverse modifies ++ trace w)%list
    /\ Forall (fun ev => exists out, exchange ev = XModify params out) modifies.
Proof.
  unfold modifyRetry, Retry, WaitForState. cbn [Timeout].
  set (conf := {| Pending := [ "retryableerror" ]; Target := [ "success" ];
                  Refresh := retryRefresh (modifyAttempt params);
                  Timeout := 5 * Minute |}).
  destruct (waitLoop_events conf
              (fun ev => exists out, exchange ev = XModify params out))
    with (fuel := polls (5 * Minute) w) (deadline := clock w + 5 * Minute)
         (x := (tt, @None error)) (w := w)
    as (evs & Htr & Hall).
  { intros [x r] w0. cbn [Refresh conf]. unfold retryRefresh, modifyAttempt,
      ModifyListener. cbn [fst].
    set (q := modifyReplies (service w0) (calls isModify w0)).
    exists {| started := clock w0; finished := clock w0 + Z.of_N (latency q);
              exchange := XModify params (result q) |}.
    destruct (result q) as [out|e] eqn:Hq.
    - eexists _, _. split; [reflexivity|]. cbn [exchange]. eauto.
    - destruct (isAWSErr e ErrCodeCertificateNotFoundException "");
        (eexists _, _; split; [reflexivity|]; cbn [exchange]; eauto). }
  exists evs. split; [|exact Hall].
  destruct (waitLoop (polls (5 * Minute) w) (clock w + 5 * Minute) conf (tt, None) w)
    as [[[res werr] [x1 rerr]] w1].
  destruct rerr; exact Htr.
Qed.

(** Read makes one exchange, a describe call for the ID of the data. *)
Lemma read_event (d : ResourceData) (w : World) :
  exists ev out, snd (resourceAwsLbListenerRead d w) = after ev w
                 /\ exchange ev = XDescribe (Id d) out.
Proof.
  unfold resourceAwsLbListenerRead.
  destruct (refresh_step (Id d) w) as (ev & Heq & _ & _ & _ & Hx).
  rewrite Heq. exists ev. eexists. split; [|exact Hx].
  destruct (refreshAnswer (Id d) ev) as [[lb st] [e|]].
  - destruct (isAWSErr e _ _); reflexivity.
  - destruct lb; reflexivity.
Qed.

Lemma create_events (d : ResourceData) (w : World) :
  exists creates describes,
    trace (snd (resourceAwsLbListenerCreate d w))
    = (reverse describes ++ reverse creates ++ trace w)%list
    /\ Forall (fun ev => exists out, exchange ev = XCreate (createInputOf d) out)
              creates
    /\ Forall (fun ev => exists out,
                 exchange ev
                 = XDescribe (Id (snd (fst (resourceAwsLbListenerCreate d w)))) out)
              describes.
Proof.
  unfold resourceAwsLbListenerCreate.
  destruct (createRetry_events (createInputOf d) w) as (creates & Htr & Hall).
  unfold createInputOf in Htr.
  change (createRetry
            {| createLoadBalancerArn := Some (load_balancer_arn d);
               createPort := Some (port d);
               createProtocol := Some (protocol d);
               createSslPolicy := sslPolicyOf d;
               createCertificates := certificatesOf d;
               createDefaultActions := defaultActionsOf d |} w)
    with (createRetry (createInputOf d) w) in *.
  cbv zeta.
  change (createRetry
            {| createLoadBalancerArn := Some (load_balancer_arn d);
               createPort := Some (port d);
               createProtocol := Some (protocol d);
               createSslPolicy := sslPolicyOf d;
               createCertificates := certificatesOf d;
               createDefaultActions := defaultActionsOf d |} w)
    with (createRetry (createInputOf d) w).
  destruct (createRetry (createInputOf d) w) as [[err resp] w1]. cbn [snd] in Htr.
  assert (Hnone : forall (res : Result) (d' : ResourceData),
    exists creates0 describes,
      trace (snd (res, d', w1)) = (reverse describes ++ reverse creates0 ++ trace w)%list
      /\ Forall (fun ev => exists out, exchange ev = XCreate (createInputOf d) out)
                creates0
      /\ Forall (fun ev => exists out,
                   exchange ev = XDescribe (Id (snd (fst (res, d', w1)))) out)
                describes).
  { intros res d'. exists creates, []. split_and!; [exact Htr|exact Hall|constructor]. }
  destruct err as [e|]; [apply Hnone|].
  destruct resp as [resp|]; [|apply Hnone].
  destruct (Listeners resp) as [|l ls]; [apply Hnone|].
  destruct (ListenerArn l) as [a|]; [|apply Hnone].
  cbn [Id SetId]. unfold WaitForState. cbn [Timeout].
  set (conf := {| Pending := [ "" ]; Target := [ "exists" ];
                  Refresh := fun (_ : unit) w =>
                    let '(r, w') := resourceAwsLbListenerRefreshFunc a w in
                    (r, tt, w');
                  Timeout := 3 * Minute |}).
  destruct (waitLoop_events conf
              (fun ev => exists out, exchange ev = XDescribe a out))
    with (fuel := polls (3 * Minute) w1) (deadline := clock w1 + 3 * Minute)
         (x := tt) (w := w1)
    as (describes & Htr2 & Hall2).
  { intros x w0. destruct (refresh_step a w0) as (p & Heq & _ & _ & _ & Hx).
    exists p. cbn [Refresh conf]. rewrite Heq. eexists _, _.
    split; [reflexivity|]. eauto. }
  destruct (waitLoop (polls (3 * Minute) w1) (clock w1 + 3 * Minute) conf tt w1)
    as [[[lbRaw werr] u] w2].
  cbn [snd] in Htr2.
  assert (Hfin : forall (res : Result) (d' : ResourceData),
    Id d' = a ->
    exists creates0 describes0,
      trace (snd (res, d', w2)) = (reverse describes0 ++ reverse creates0 ++ trace w)%list
      /\ Forall (fun ev => exists out, exchange ev = XCreate (createInputOf d) out)
                creates0
      /\ Forall (fun ev => exists out,
                   exchange ev = XDescribe (Id (snd (fst (res, d', w2)))) out)
                describes0).
  { intros res d' Hid. exists creates, describes. cbn [fst snd]. rewrite Hid.
    split_and!; [rewrite Htr2, Htr; reflexivity|exact Hall|exact Hall2]. }
  destruct werr as [e|]; [apply Hfin; reflexivity|].
  destruct lbRaw as [lb|]; apply Hfin; reflexivity.
Qed.
End OperationEvents.

Section OperationExtras.
Import LbListener.

Lemma filter_first {A} (k : A -> bool) (xs ys : list A) :
  Forall (fun a => k a = true) xs -> Forall (fun a => k a = false) ys ->
  List.filter k (xs ++ ys) = xs.
Proof.
  intros Hx Hy. rewrite List.filter_app, (filter_keep _ _ Hx), (filter_drop _ _ Hy).
  apply app_nil_r.
Qed.

Lemma filter_second {A} (k : A -> bool) (xs ys : list A) :
  Forall (fun a => k a = false) xs -> Forall (fun a => k a = true) ys ->
  List.filter k (xs ++ ys) = ys.
Proof.
  intros Hx Hy. rewrite List.filter_app, (filter_keep _ _ Hy), (filter_drop _ _ Hx).
  reflexivity.
Qed.

(** What Read returns, read off its one exchange. *)
Lemma read_cases (d : ResourceData) (w : World) :
  let '(res, d', w') := resourceAwsLbListenerRead d w in
  exists ev out,
    w' = after ev w
    /\ exchange ev = XDescribe (Id d) out
    /\ match failure ev with
       | Some e =>
           if isAWSErr e ErrCodeListenerNotFoundException ""
           then res = Ok /\ d' = SetId "" d
           else (exists e', res = Failed e') /\ d' = d
       | None =>
           match listenersOf ev with
           | Some [ l ] => res = Ok /\ d' = resourceAwsLbListenerReadData d l
           | _ => (exists e', res = Failed e') /\ d' = d
           end
       end.
Proof.
  unfold resourceAwsLbListenerRead.
  destruct (refresh_step (Id d) w) as (ev & Heq & _ & _ & _ & Hx).
  rewrite Heq. unfold refreshAnswer, failure, listenersOf. rewrite Hx.
  destruct (result (describeReplies (service w) (calls isDescribe w)))
    as [[ls]|e]; cbn [Listeners].
  - destruct ls as [|l [|l2 ls]]; cbn [isAWSErr]; exists ev; eexists;
      (split; [reflexivity|]); (split; [exact Hx|]);
      rewrite Hx; cbn [Listeners]; eauto.
  - destruct (isAWSErr e ErrCodeListenerNotFoundException "") eqn:He;
      cbn [Errorf isAWSErr]; exists ev; eexists;
      (split; [reflexivity|]); (split; [exact Hx|]);
      rewrite Hx, He; eauto.
Qed.

(** A run of Update: the ModifyListener calls of the retry, then, when
    the last of them succeeded, the one exchange of Read. *)
Lemma update_run (d : ResourceData) (w : World) :
  let '(res, d', w') := resourceAwsLbListenerUpdate d w in
  exists (modifies : list Event) (ev : Event),
    Forall (fun e => exists out, exchange e = XModify (modifyInputOf d) out) modifies
    /\ last modifies = Some ev
    /\ match failure ev with
       | Some e =>
           since w w' = modifies
           /\ res = Failed (Errorf "Error modifying LB Listener: " e) /\ d' = d
       | None =>
           exists p out,
             since w w' = (modifies ++ [ p ])%list
             /\ exchange p = XDescribe (Id d) out
             /\ match failure p with
                | Some e =>
                    if isAWSErr e ErrCodeListenerNotFoundException ""
                    then res = Ok /\ d' = SetId "" d
                    else (exists e', res = Failed e') /\ d' = d
                | None =>
                    match listenersOf p with
                    | Some [ l ] =>
                        res = Ok /\ d' = resourceAwsLbListenerReadData d l
                    | _ => (exists e', res = Failed e') /\ d' = d
                    end
                end
       end.
Proof.
  unfold resourceAwsLbListenerUpdate. cbv zeta.
  change (modifyRetry
            {| modifyListenerArn := Some (Id d);
               modifyPort := Some (port d);
               modifyProtocol := Some (protocol d);
               modifySslPolicy := sslPolicyOf d;
               modifyCertificates := certificatesOf d;
               modifyDefaultActions := defaultActionsOf d |} w)
    with (modifyRetry (modifyInputOf d) w).
  destruct (modifyRetry_events (modifyInputOf d) w) as (modifies & Htr & Hall).
  pose proof (Retry_trace (modifyAttempt (modifyInputOf d)) certificateRetry
                (fun _ => tt) isModify (modifyAttempt_step (modifyInputOf d))
                (5 * Minute) tt w) as H.
  unfold modifyRetry in *.
  destruct (Retry (5 * Minute) (modifyAttempt (modifyInputOf d)) tt w)
    as [[err u] w1].
  cbn [snd] in Htr.
  destruct H as (modifies' & Htr' & _ & _ & _ & _ & Hlast).
  assert (modifies' = modifies) as ->.
  { rewrite Htr in Htr'. apply app_inv_tail in Htr'.
    apply (inj reverse). symmetry. exact Htr'. }
  destruct (last modifies) as [ev|] eqn:Hlev;
    [|destruct Hlast as (? & _); pose proof minutes_positive; lia].
  assert (Herr : Err <$> certificateRetry ev = failure ev).
  { unfold certificateRetry. destruct (failure ev) as [e|]; [|reflexivity].
    simpl. destruct (isAWSErr e _ _); reflexivity. }
  rewrite Herr in Hlast. destruct Hlast as (_ & -> & _).
  destruct (failure ev) as [e|] eqn:Hfail.
  - exists modifies, ev. rewrite Hfail.
    split_and!; auto using since_trace.
  - pose proof (read_cases d w1) as Hr.
    destruct (resourceAwsLbListenerRead d w1) as [[res d'] w'].
    destruct Hr as (p & out & -> & Hx & Hcases).
    exists modifies, ev. rewrite Hfail. split_and!; auto.
    exists p, out. split_and!; auto.
    apply since_trace. cbn [trace after]. rewrite Htr, reverse_app. reflexivity.
Qed.

Lemma kinds_of_create (params : CreateListenerInput) (evs : list Event) :
  Forall (fun ev => exists out, exchange ev = XCreate params out) evs ->
  Forall (fun ev => isCreate ev = true) evs
  /\ Forall (fun ev => isDescribe ev = false) evs
  /\ Forall (fun ev => isModify ev = false) evs
  /\ Forall (fun ev => isDelete ev = false) evs.
Proof.
  intros H. split_and!; (eapply Forall_impl; [exact H|]); intros ev [out Hx];
    unfold isCreate, isDescribe, isModify, isDelete; rewrite Hx; reflexivity.
Qed.

Lemma kinds_of_describe (id : string) (evs : list Event) :
  Forall (fun ev => exists out, exchange ev = XDescribe id out) evs ->
  Forall (fun ev => isDescribe ev = true) evs
  /\ Forall (fun ev => isCreate ev = false) evs
  /\ Forall (fun ev => isModify ev = false) evs
  /\ Forall (fun ev => isDelete ev = false) evs.
Proof.
  intros H. split_and!; (eapply Forall_impl; [exact H|]); intros ev [out Hx];
    unfold isCreate, isDescribe, isModify, isDelete; rewrite Hx; reflexivity.
Qed.

Lemma kinds_of_modify (params : ModifyListenerInput) (evs : list Event) :
  Forall (fun ev => exists out, exchange ev = XModify params out) evs ->
  Forall (fun ev => isModify ev = true) evs
  /\ Forall (fun ev => isCreate ev = false) evs
  /\ Forall (fun ev => isDescribe ev = false) evs
  /\ Forall (fun ev => isDelete ev = false) evs.
Proof.
  intros H. split_and!; (eapply Forall_impl; [exact H|]); intros ev [out Hx];
    unfold isCreate, isDescribe, isModify, isDelete; rewrite Hx; reflexivity.
Qed.

(** The exchanges of Create and of Update, sorted by operation. *)
Lemma create_run_calls (d : ResourceData) (w : World) :
  exists creates describes,
    since w (snd (resourceAwsLbListenerCreate d w)) = (creates ++ describes)%list
    /\ Forall (fun ev => exists out, exchange ev = XCreate (createInputOf d) out)
              creates
    /\ Forall (fun ev => exists out,
                 exchange ev
                 = XDescribe (Id (snd (fst (resourceAwsLbListenerCreate d w)))) out)
              describes.
Proof.
  destruct (create_events d w) as (creates & describes & Htr & Hc & Hd).
  exists creates, describes. split_and!; auto.
  apply since_trace. rewrite reverse_app, <- app_assoc. exact Htr.
Qed.

Lemma update_run_calls (d : ResourceData) (w : World) :
  exists modifies rest,
    since w (snd (resourceAwsLbListenerUpdate d w)) = (modifies ++ rest)%list
    /\ Forall (fun ev => exists out, exchange ev = XModify (modifyInputOf d) out)
              modifies
    /\ Forall (fun ev => exists out, exchange ev = XDescribe (Id d) out) rest
    /\ (length rest <= 1)%nat.
Proof.
  pose proof (update_run d w) as H.
  destruct (resourceAwsLbListenerUpdate d w) as [[res d'] w'].
  destruct H as (modifies & ev & Hall & _ & Hcase). cbn [snd].
  destruct (failure ev).
  - destruct Hcase as (Hs & _). exists modifies, []. rewrite app_nil_r.
    split_and!; auto; simpl; lia.
  - destruct Hcase as (p & out & Hs & Hx & _). exists modifies, [ p ].
    split_and!; auto. constructor; [eauto|constructor].
Qed.

(** Every attempt of a retry repeats the request built from the
    configuration: all CreateListener calls of a run of Create carry the
    same input, all ModifyListener calls of a run of Update carry the same
    input; the describe calls of Create ask for the ID the resource data
    ends with, the describe call of Update for the ID it started with. *)
Theorem attempts_repeat_the_request (d : ResourceData) (w : World) :
  Forall (fun ev => exists out, exchange ev = XCreate (createInputOf d) out)
         (createCalls w (snd (resourceAwsLbListenerCreate d w)))
  /\ Forall (fun ev => exists out,
               exchange ev
               = XDescribe (Id (snd (fst (resourceAwsLbListenerCreate d w)))) out)
            (describeCalls w (snd (resourceAwsLbListenerCreate d w)))
  /\ Forall (fun ev => exists out, exchange ev = XModify (modifyInputOf d) out)
            (modifyCalls w (snd (resourceAwsLbListenerUpdate d w)))
  /\ Forall (fun ev => exists out, exchange ev = XDescribe (Id d) out)
            (describeCalls w (snd (resourceAwsLbListenerUpdate d w))).
Proof.
  destruct (create_run_calls d w) as (creates & describes & Hs & Hc & Hd).
  destruct (update_run_calls d w) as (modifies & rest & Hsu & Hm & Hr & _).
  destruct (kinds_of_create _ _ Hc) as (Hc1 & Hc2 & _).
  destruct (kinds_of_describe _ _ Hd) as (Hd1 & Hd2 & _).
  destruct (kinds_of_modify _ _ Hm) as (Hm1 & _ & Hm2 & _).
  destruct (kinds_of_describe _ _ Hr) as (Hr1 & _ & Hr2 & _).
  unfold createCalls, describeCalls, modifyCalls. rewrite Hs, Hsu.
  rewrite (filter_first isCreate), (filter_second isDescribe creates),
    (filter_first isModify), (filter_second isDescribe modifies); auto.
Qed.

(** No operation calls an API that is not its own: Create makes no
    modify or delete call, Update no create or delete call and at most
    one describe call, Read exactly one describe call and nothing else,
    Delete exactly one delete call and nothing else. *)
Theorem operations_call_their_own_api (d : ResourceData) (w : World) :
  (modifyCalls w (snd (resourceAwsLbListenerCreate d w)) = []
   /\ deleteCalls w (snd (resourceAwsLbListenerCreate d w)) = [])
  /\ (createCalls w (snd (resourceAwsLbListenerUpdate d w)) = []
      /\ deleteCalls w (snd (resourceAwsLbListenerUpdate d w)) = []
      /\ (length (describeCalls w (snd (resourceAwsLbListenerUpdate d w))) <= 1)%nat)
  /\ (exists p, since w (snd (resourceAwsLbListenerRead d w)) = [ p ]
                /\ isDescribe p = true)
  /\ (exists p, since w (snd (resourceAwsLbListenerDelete d w)) = [ p ]
                /\ isDelete p = true).
Proof.
  destruct (create_run_calls d w) as (creates & describes & Hs & Hc & Hd).
  destruct (update_run_calls d w) as (modifies & rest & Hsu & Hm & Hr & Hlen).
  destruct (kinds_of_create _ _ Hc) as (_ & _ & Hc3 & Hc4).
  destruct (kinds_of_describe _ _ Hd) as (_ & _ & Hd3 & Hd4).
  destruct (kinds_of_modify _ _ Hm) as (_ & Hm2 & Hm3 & Hm4).
  destruct (kinds_of_describe _ _ Hr) as (Hr1 & Hr2 & _ & Hr4).
  unfold createCalls, describeCalls, modifyCalls, deleteCalls.
  rewrite Hs, Hsu. split_and!.
  - apply filter_drop, Forall_app; auto.
  - apply filter_drop, Forall_app; auto.
  - apply filter_drop, Forall_app; auto.
  - apply filter_drop, Forall_app; auto.
  - rewrite (filter_second isDescribe modifies); auto.
  - destruct (read_event d w) as (p & out & Hw & Hx). exists p. rewrite Hw.
    split; [apply since_trace; reflexivity|].
    unfold isDescribe. rewrite Hx. reflexivity.
  - unfold resourceAwsLbListenerDelete, DeleteListener.
    destruct (result (deleteReplies (service w) (calls isDelete w))) eqn:Hr0;
      cbv beta iota zeta; cbn [snd];
      (eexists; split; [apply since_trace; unfold exchanged; cbn [trace reverse];
                        reflexivity|reflexivity]).
Qed.
End OperationExtras.

Section DataExtras.
Import LbListener.

(** Read and Update keep the resource ID or clear it, and never change it
    to another one; Create keeps it or sets it to the ARN of the first
    listener its last CreateListener call answered with. *)
Theorem identifier_changes (d : ResourceData) (w : World) :
  (Id (snd (fst (resourceAwsLbListenerRead d w))) = Id d
   \/ Id (snd (fst (resourceAwsLbListenerRead d w))) = "")
  /\ (Id (snd (fst (resourceAwsLbListenerUpdate d w))) = Id d
      \/ Id (snd (fst (resourceAwsLbListenerUpdate d w))) = "")
  /\ (Id (snd (fst (resourceAwsLbListenerCreate d w))) = Id d
      \/ exists ev l ls,
           last (createCalls w (snd (resourceAwsLbListenerCreate d w))) = Some ev
           /\ listenersOf ev = Some (l :: ls)
           /\ ListenerArn l
              = Some (Id (snd (fst (resourceAwsLbListenerCreate d w))))).
Proof.
  split_and!.
  - pose proof (read_cases d w) as H.
    destruct (resourceAwsLbListenerRead d w) as [[res d'] w']. cbn [fst snd].
    destruct H as (ev & out & _ & _ & Hc).
    destruct (failure ev) as [e|].
    + destruct (isAWSErr e _ _); destruct Hc as [_ ->]; auto.
    + destruct (listenersOf ev) as [[|l1 [|l2 ls1]]|]; destruct Hc as [_ ->]; auto.
  - pose proof (update_run d w) as H.
    destruct (resourceAwsLbListenerUpdate d w) as [[res d'] w']. cbn [fst snd].
    destruct H as (modifies & ev & _ & _ & Hc).
    destruct (failure ev) as [e|]; [destruct Hc as (_ & _ & ->); auto|].
    destruct Hc as (p & out & _ & _ & Hc).
    destruct (failure p) as [e|].
    + destruct (isAWSErr e _ _); destruct Hc as [_ ->]; auto.
    + destruct (listenersOf p) as [[|l1 [|l2 ls1]]|]; destruct Hc as [_ ->]; auto.
  - pose proof (create_shape d w) as H.
    destruct (resourceAwsLbListenerCreate d w) as [[res d'] w']. cbn [fst snd].
    destruct H as (creates & describes & ev & Hs & Hc & Hd & _ & Hlast & Hres).
    destruct (create_calls w w' creates describes Hs) as [-> _]; auto.
    { eapply Forall_impl; [exact Hc|]. simpl. tauto. }
    destruct (failure ev) as [e|]; [destruct Hres as (_ & -> & _); auto|].
    destruct (listenersOf ev) as [[|l ls]|] eqn:Hlo;
      [destruct Hres as (_ & -> & _); auto| |destruct Hres as (_ & -> & _); auto].
    destruct (ListenerArn l) as [a|] eqn:Harn;
      [|destruct Hres as (_ & -> & _); auto].
    destruct Hres as (Hid & _). right. exists ev, l, ls. rewrite Hid. auto.
Qed.

(** Storing the same listener twice changes nothing more. *)
Theorem read_data_idempotent (d : ResourceData) (l : Listener) :
  resourceAwsLbListenerReadData (resourceAwsLbListenerReadData d l) l
  = resourceAwsLbListenerReadData d l.
Proof.
  unfold resourceAwsLbListenerReadData. cbn [Id certificate_arn]. f_equal.
  destruct (Certificates l) as [|[c|] [|c2 cs]]; reflexivity.
Qed.

(** The configuration comes back from a listener that mirrors the request
    Create built from it: load balancer, port, protocol, SSL policy and
    certificate are read back as configured, and so is the default action
    when exactly one is configured; with none or several configured the
    request carries no action and none is read back. *)
Theorem configuration_round_trip (d : ResourceData) (l : Listener)
    (Hlb : LoadBalancerArn l = createLoadBalancerArn (createInputOf d))
    (Hport : Port l = createPort (createInputOf d))
    (Hprotocol : Protocol l = createProtocol (createInputOf d))
    (Hssl : SslPolicy l = createSslPolicy (createInputOf d))
    (Hcert : Certificates l = createCertificates (createInputOf d))
    (Hact : DefaultActions l = createDefaultActions (createInputOf d)) :
  let d' := resourceAwsLbListenerReadData d l in
  Id d' = Id d
  /\ load_balancer_arn d' = load_balancer_arn d
  /\ port d' = port d
  /\ protocol d' = protocol d
  /\ ssl_policy d' = ssl_policy d
  /\ certificate_arn d' = certificate_arn d
  /\ default_action d'
     = (if (length (default_action d) =? 1)%nat then default_action d else []).
Proof.
  unfold resourceAwsLbListenerReadData. cbn [Id load_balancer_arn port protocol
    ssl_policy certificate_arn default_action].
  rewrite Hlb, Hport, Hprotocol, Hssl, Hcert, Hact. unfold createInputOf.
  cbn [createLoadBalancerArn createPort createProtocol createSslPolicy
       createCertificates createDefaultActions].
  split_and!; try reflexivity.
  - unfold sslPolicyOf, GetOk. destruct (String.eqb_spec (ssl_policy d) "") as [->|];
      reflexivity.
  - unfold certificatesOf, GetOk.
    destruct (String.eqb_spec (certificate_arn d) "") as [->|]; reflexivity.
  - unfold defaultActionsOf. destruct (length (default_action d) =? 1)%nat;
      [|reflexivity].
    rewrite List.map_map. rewrite <- (List.map_id (default_action d)) at 2.
    apply List.map_ext. intros [tg ty]. reflexivity.
Qed.

(** When the last ModifyListener call of Update succeeded, Update makes
    one describe call for the ID and returns what Read returns for it: nil
    with the listener stored when exactly one listener is described, nil
    with the ID cleared when the listener is not found, an error
    otherwise. *)
Theorem update_reads_back (d : ResourceData) (w : World) (ev : Event)
    (Hlast : last (modifyCalls w (snd (resourceAwsLbListenerUpdate d w))) = Some ev)
    (Hok : failure ev = None) :
  exists p out,
    describeCalls w (snd (resourceAwsLbListenerUpdate d w)) = [ p ]
    /\ exchange p = XDescribe (Id d) out
    /\ match failure p with
       | Some e =>
           if isAWSErr e ErrCodeListenerNotFoundException ""
           then fst (resourceAwsLbListenerUpdate d w) = (Ok, SetId "" d)
           else (exists e', fst (fst (resourceAwsLbListenerUpdate d w)) = Failed e')
                /\ snd (fst (resourceAwsLbListenerUpdate d w)) = d
       | None =>
           match listenersOf p with
           | Some [ l ] =>
               fst (resourceAwsLbListenerUpdate d w)
               = (Ok, resourceAwsLbListenerReadData d l)
           | _ => (exists e', fst (fst (resourceAwsLbListenerUpdate d w)) = Failed e')
                  /\ snd (fst (resourceAwsLbListenerUpdate d w)) = d
           end
       end.
Proof.
  pose proof (update_run d w) as H.
  destruct (resourceAwsLbListenerUpdate d w) as [[res d'] w']. cbn [fst snd] in *.
  destruct H as (modifies & ev0 & Hall & Hl0 & Hcase).
  destruct (kinds_of_modify _ _ Hall) as (Hm1 & _ & Hm3 & _).
  assert (Hev : failure ev0 = None /\ ev0 = ev).
  { destruct (failure ev0) as [e|] eqn:Hf.
    - destruct Hcase as (Hs & _). unfold modifyCalls in Hlast.
      rewrite Hs, (filter_keep _ _ Hm1), Hl0 in Hlast. injection Hlast as <-.
      congruence.
    - destruct Hcase as (p & out & Hs & Hx & _). unfold modifyCalls in Hlast.
      rewrite Hs, (filter_first isModify) in Hlast; auto.
      + rewrite Hl0 in Hlast. injection Hlast as <-. auto.
      + constructor; [|constructor]. unfold isModify. rewrite Hx. reflexivity. }
  destruct Hev as [Hf ->]. rewrite Hf in Hcase.
  destruct Hcase as (p & out & Hs & Hx & Hc).
  exists p, out. split_and!; auto.
  - unfold describeCalls. rewrite Hs. apply filter_second; auto.
    constructor; [|constructor]. unfold isDescribe. rewrite Hx. reflexivity.
  - destruct (failure p) as [e|].
    + destruct (isAWSErr e _ _); [destruct Hc as [-> ->]; reflexivity|exact Hc].
    + destruct (listenersOf p) as [[|l1 [|l2 ls1]]|]; try exact Hc.
      destruct Hc as [-> ->]. reflexivity.
Qed.
End DataExtras.

Lemma configuration_round_trip_witness :
  (LbListener.LoadBalancerArn LbListener.Samples.mirror1
   = LbListener.createLoadBalancerArn (LbListener.createInputOf LbListener.Samples.data1)
   /\ LbListener.Port LbListener.Samples.mirror1
      = LbListener.createPort (LbListener.createInputOf LbListener.Samples.data1)
   /\ LbListener.Protocol LbListener.Samples.mirror1
      = LbListener.createProtocol (LbListener.createInputOf LbListener.Samples.data1)
   /\ LbListener.SslPolicy LbListener.Samples.mirror1
      = LbListener.createSslPolicy (LbListener.createInputOf LbListener.Samples.data1)
   /\ LbListener.Certificates LbListener.Samples.mirror1
      = LbListener.createCertificates (LbListener.createInputOf LbListener.Samples.data1)
   /\ LbListener.DefaultActions LbListener.Samples.mirror1
      = LbListener.createDefaultActions
          (LbListener.createInputOf LbListener.Samples.data1))
  /\ LbListener.default_action
       (LbListener.resourceAwsLbListenerReadData LbListener.Samples.data1
          LbListener.Samples.mirror1)
     = [ ("arn:targetgroup/1", "forward") ].
Proof.
  split; [split_and!; reflexivity|].
  exact (proj2 (proj2 (proj2 (proj2 (proj2 (proj2
    (configuration_round_trip LbListener.Samples.data1 LbListener.Samples.mirror1
       eq_refl eq_refl eq_refl eq_refl eq_refl eq_refl))))))).
Defined.

Lemma update_reads_back_witness :
  exists ev,
    (last (LbListener.modifyCalls
             (LbListener.Samples.worldOf LbListener.Samples.flakyService)
             (snd (LbListener.resourceAwsLbListenerUpdate LbListener.Samples.data1
                     (LbListener.Samples.worldOf LbListener.Samples.flakyService))))
     = Some ev
     /\ LbListener.failure ev = None)
    /\ exists p,
         LbListener.describeCalls
           (LbListener.Samples.worldOf LbListener.Samples.flakyService)
           (snd (LbListener.resourceAwsLbListenerUpdate LbListener.Samples.data1
                   (LbListener.Samples.worldOf LbListener.Samples.flakyService)))
         = [ p ].
Proof.
  eexists.
  assert (H1 : last (LbListener.modifyCalls
             (LbListener.Samples.worldOf LbListener.Samples.flakyService)
             (snd (LbListener.resourceAwsLbListenerUpdate LbListener.Samples.data1
                     (LbListener.Samples.worldOf LbListener.Samples.flakyService))))
     = Some _) by (vm_compute; reflexivity).
  split; [split; [exact H1|reflexivity]|].
  destruct (update_reads_back LbListener.Samples.data1
              (LbListener.Samples.worldOf LbListener.Samples.flakyService) _ H1 eq_refl)
    as (p & out & Hp & _).
  exists p. exact Hp.
Defined.
